(** * PDF_agent: a document-grounded chat assistant

    Shallow embedding of [PDF_agent.py] and the properties of its
    retrieval-augmented chat loop.

    Modelling conventions.
    - A Python [str] is a [string]; a character stands for the code point
      with the same number (0..255).
    - An operation that can raise returns a [result]; code with effects
      (printing, the file system, the model service, the session store) is
      a function from [World] to a [result] of a value and a new world.
      An exception that nobody catches ends the program, so a raised
      outcome carries the exception only.
    - The external services (the chat model, [json.loads], [str()] of a
      value that is not a string) are the fields of the class [Externals];
      the vector store is an object with one method, as in the script. *)

From Stdlib Require Import String Ascii List ZArith QArith Qminmax SpecFloat Lia.
From Stdlib Require Import Sorting.Sorted.
From stdpp Require Import base strings list gmap pretty.

#[local] Set Warnings "-register-all".

Local Open Scope string_scope.
Local Open Scope list_scope.
Local Open Scope nat_scope.

(* ===================================================================== *)
(** * Part I: definitions *)
(* ===================================================================== *)

(** ** Python strings *)

Definition nl : string := String (ascii_of_nat 10) "".
Definition dq : string := String (ascii_of_nat 34) "".

(** [str.isspace] on one character: tab to carriage return, the four
    separators 0x1c..0x1f, the space, NEL (0x85) and the no-break space
    (0xa0). *)
Definition isspace (c : ascii) : bool :=
  let n := nat_of_ascii c in
  ((9 <=? n) && (n <=? 13)) || ((28 <=? n) && (n <=? 32))
  || (n =? 133) || (n =? 160).

Fixpoint lstrip (s : string) : string :=
  match s with
  | String c rest => if isspace c then lstrip rest else s
  | EmptyString => EmptyString
  end.

Fixpoint rstrip (s : string) : string :=
  match s with
  | String c rest =>
      match rstrip rest with
      | EmptyString => if isspace c then EmptyString else String c EmptyString
      | r => String c r
      end
  | EmptyString => EmptyString
  end.

(** [s.strip()] *)
Definition strip (s : string) : string := rstrip (lstrip s).

(** [s.startswith(p)] *)
Fixpoint startswith (s p : string) {struct p} : bool :=
  match p, s with
  | EmptyString, _ => true
  | String a p', String b s' => if Ascii.eqb a b then startswith s' p' else false
  | String _ _, EmptyString => false
  end.

(** [s.endswith(p)] *)
Definition endswith (s p : string) : bool :=
  let n := String.length s in
  let m := String.length p in
  (m <=? n) && String.eqb (substring (n - m) m s) p.

(** A slice bound, as Python resolves it against a sequence of length [len]:
    a negative bound counts from the end, and both are clamped. *)
Definition slice_index (len : nat) (i : Z) : nat :=
  if (i <? 0)%Z then Z.to_nat (Z.max 0 (Z.of_nat len + i))
  else Nat.min len (Z.to_nat i).

(** [s[start:stop]] *)
Definition slice (s : string) (start stop : Z) : string :=
  let a := slice_index (String.length s) start in
  let b := slice_index (String.length s) stop in
  substring a (b - a) s.

(** [str.lower] on one character: A..Z and the upper-case letters of the
    Latin-1 block (0xc0..0xde but the multiplication sign 0xd7). *)
Definition lower_char (c : ascii) : ascii :=
  let n := nat_of_ascii c in
  if ((65 <=? n) && (n <=? 90))
     || ((192 <=? n) && (n <=? 222) && negb (n =? 215))
  then ascii_of_nat (n + 32) else c.

(** [s.lower()] *)
Fixpoint lower (s : string) : string :=
  match s with
  | String c rest => String (lower_char c) (lower rest)
  | EmptyString => EmptyString
  end.

(** every character of [s] is white space *)
Fixpoint all_whitespace (s : string) : bool :=
  match s with
  | String c rest => isspace c && all_whitespace rest
  | EmptyString => true
  end.

(** [sep.join(parts)] *)
Fixpoint join (sep : string) (parts : list string) : string :=
  match parts with
  | [] => ""
  | [p] => p
  | p :: rest => p +:+ sep +:+ join sep rest
  end.

(** ** Exceptions and results *)

Record exn := Exn { exn_type : string; exn_msg : string }.

Inductive result (A : Type) : Type :=
| Ok (a : A)
| Raise (e : exn).
Arguments Ok {A} a.
Arguments Raise {A} e.

(** [seq[-1]] *)
Definition last_item {A : Type} (l : list A) : result A :=
  match last l with
  | Some x => Ok x
  | None => Raise (Exn "IndexError" "list index out of range")
  end.

(** ** Values produced by [json.loads] *)

Inductive json : Type :=
| JNull
| JBool (b : bool)
| JInt (z : Z)
| JFloat (f : spec_float)
| JStr (s : string)
| JList (items : list json)
| JDict (fields : gmap string json).

(** Truth value of a Python object, as [or] tests it. *)
Definition truthy (v : json) : bool :=
  match v with
  | JNull => false
  | JBool b => b
  | JInt z => negb (z =? 0)%Z
  | JFloat (S754_zero _) => false
  | JFloat _ => true
  | JStr s => negb (String.eqb s "")
  | JList items => match items with [] => false | _ => true end
  | JDict fields => negb (bool_decide (fields = ∅))
  end.

(** [v[key]] for a string key. *)
Definition getitem (v : json) (key : string) : result json :=
  match v with
  | JDict fields =>
      match fields !! key with
      | Some x => Ok x
      | None => Raise (Exn "KeyError" key)
      end
  | JList _ => Raise (Exn "TypeError" "list indices must be integers or slices, not str")
  | JStr _ => Raise (Exn "TypeError" "string indices must be integers")
  | _ => Raise (Exn "TypeError" "object is not subscriptable")
  end.

(** ** Messages, documents and the conversation state *)

Inductive Message : Type :=
| SystemMessage (text : string)
| HumanMessage (text : string)
| AIMessage (text : string).

Definition content (m : Message) : string :=
  match m with
  | SystemMessage t | HumanMessage t | AIMessage t => t
  end.

Record Document := { page_content : string }.

Record MessagesState := { messages : list Message }.

(** ** The world the script acts on *)

(** What a path of the program leads to. A directory stands for its whole
    tree: all that lies below it is in its [records], not under keys of its
    own. A regular file is entered under its name without a trailing
    slash. *)
Inductive fs_node : Type :=
| RegularFile
| Directory (records : list string).

Record World := {
  filesystem : gmap string fs_node;        (* what lies at each path *)
  stdout : list string;                    (* text of each [print], oldest first *)
  checkpoints : gmap string (list Message);(* [MemorySaver]: thread_id to history *)
  invocations : list (list Message);       (* arguments of each [model.invoke] *)
}.

Definition M (A : Type) : Type := World -> result (A * World).

Definition ret {A : Type} (a : A) : M A := fun w => Ok (a, w).

Definition bind {A B : Type} (m : M A) (f : A -> M B) : M B :=
  fun w => match m w with
           | Ok (a, w') => f a w'
           | Raise e => Raise e
           end.

Definition raise {A : Type} (e : exn) : M A := fun _ => Raise e.

Definition lift {A : Type} (r : result A) : M A :=
  fun w => match r with
           | Ok a => Ok (a, w)
           | Raise e => Raise e
           end.

Notation "x <- m ;; k" := (bind m (fun x => k))
  (at level 100, m at next level, right associativity).
Notation "m ;;; k" := (bind m (fun _ => k))
  (at level 100, right associativity).

Definition set_filesystem (f : gmap string fs_node) (w : World) : World :=
  {| filesystem := f; stdout := stdout w;
     checkpoints := checkpoints w; invocations := invocations w |}.

Definition set_checkpoints (c : gmap string (list Message)) (w : World) : World :=
  {| filesystem := filesystem w; stdout := stdout w;
     checkpoints := c; invocations := invocations w |}.

Definition add_output (text : string) (w : World) : World :=
  {| filesystem := filesystem w; stdout := stdout w ++ [text];
     checkpoints := checkpoints w; invocations := invocations w |}.

Definition add_invocation (msgs : list Message) (w : World) : World :=
  {| filesystem := filesystem w; stdout := stdout w;
     checkpoints := checkpoints w; invocations := invocations w ++ [msgs] |}.

Definition write (text : string) : M unit :=
  fun w => Ok (tt, add_output text w).

(** [print(line)] *)
Definition print (line : string) : M unit := write (line +:+ nl).

(** The world after the metadata block has reported a parse failure: the
    error, the heading and the two fields. *)
Definition not_found_report (e : exn) (w : World) : World :=
  add_output ("Author: Not found" +:+ nl +:+ nl)
    (add_output ("Date: Not found" +:+ nl)
       (add_output (nl +:+ "Document Metadata:" +:+ nl)
          (add_output ("Error parsing metadata: " +:+ exn_msg e +:+ nl) w))).

(** ** External services *)

Class Externals := {
  (** the reply of the chat model to its [n]-th call (counted from 0) with
      the given messages, or the error of the call *)
  model_reply : nat -> list Message -> result string;
  (** [json.loads] *)
  json_loads : string -> result json;
  (** [str(v)] for a value [v] that is not a string *)
  py_str : json -> string;
}.

(** The vector store object: the script calls one method of it. *)
Record VectorStore := {
  (** [max_marginal_relevance_search(query, k, fetch_k, lambda_mult)] *)
  max_marginal_relevance_search :
    string -> nat -> nat -> Q -> result (list Document);
}.

(** ** The script *)

Section Script.
Context `{Externals}.

(** [model.invoke(messages)]: the call is recorded, the reply comes back as
    an assistant message. *)
Definition model_invoke (msgs : list Message) : M Message :=
  fun w =>
    match model_reply (length (invocations w)) msgs with
    | Ok text => Ok (AIMessage text, add_invocation msgs w)
    | Raise e => Raise e
    end.

(** [os.path.exists(path)]: a directory exists under its name with or
    without a slash at the end; a path that ends in a slash and leads to a
    regular file does not exist. *)
Definition path_exists (path : string) : M bool :=
  fun w =>
    Ok (match filesystem w !! path with
        | Some (Directory _) => true
        | Some RegularFile => negb (endswith path "/")
        | None => false
        end, w).

(** [str(e)] of an [OSError] on a path, for a path that [repr] shows
    between single quotes as it is. *)
Definition os_error_text (errno_text path : string) : string :=
  errno_text +:+ ": '" +:+ path +:+ "'".

(** [shutil.rmtree(path)]: the directory goes with all that is in it. *)
Definition rmtree (path : string) : M unit :=
  fun w =>
    match filesystem w !! path with
    | Some (Directory _) => Ok (tt, set_filesystem (delete path (filesystem w)) w)
    | Some RegularFile =>
        Raise (Exn "NotADirectoryError"
                 (os_error_text "[Errno 20] Not a directory" path))
    | None =>
        Raise (Exn "FileNotFoundError"
                 (os_error_text "[Errno 2] No such file or directory" path))
    end.

Definition reset_vector_store (persist_directory : string) : M unit :=
  found <- path_exists persist_directory ;;
  if found : bool then
    rmtree persist_directory ;;;
    print ("Vector store at '" +:+ persist_directory +:+ "' has been reset.")
  else
    print ("No existing vector store found at '" +:+ persist_directory +:+ "'.").

Definition system_prompt : string :=
  "You are a metadata extraction assistant. Given a document, extract the following metadata:" +:+ nl +:+
  "    1. Date (if present)" +:+ nl +:+
  "    2. Author (if present)" +:+ nl +:+
  "    Return ONLY a JSON-like string in this exact format:" +:+ nl +:+
  "    {" +:+ dq +:+ "date" +:+ dq +:+ ": " +:+ dq +:+ "found_date or null" +:+ dq +:+ ", "
         +:+ dq +:+ "author" +:+ dq +:+ ": " +:+ dq +:+ "found_author or null" +:+ dq +:+ "}".

Definition fence : string := "```".

(** The body of the [try] block of [extract_metadata]. *)
Definition parse_reply (reply : string) : result json :=
  let json_str := strip reply in
  let json_str :=
    if startswith json_str fence && endswith json_str fence
    then strip (slice json_str 3 (-3))
    else json_str in
  json_loads json_str.

(** [{"date": None, "author": None}] *)
Definition null_metadata : json :=
  JDict (<["date" := JNull]> (<["author" := JNull]> ∅)).

(** The [messages] of [extract_metadata]. *)
Definition extraction_messages (doc : Document) : list Message :=
  [ SystemMessage system_prompt;
    HumanMessage ("Extract metadata from this text:" +:+ nl +:+ nl +:+ page_content doc) ].

Definition extract_metadata (doc : Document) : M json :=
  let msgs := extraction_messages doc in
  response <- model_invoke msgs ;;
  match parse_reply (content response) with
  | Ok metadata => ret metadata
  | Raise e =>
      print ("Error parsing metadata: " +:+ exn_msg e) ;;;
      ret null_metadata
  end.

Definition assistant_prompt : string :=
  "You are a helpful assistant. Use both the conversation history " +:+
  "and the provided context to give accurate answers. " +:+
  "Context: ".

Definition create_augmented_response
    (state : MessagesState) (vector_store : VectorStore) : M Message :=
  latest_msg <-
    match messages state with
    | [] => ret ""
    | _ :: _ => m <- lift (last_item (messages state)) ;; ret (content m)
    end ;;
  results <- lift (max_marginal_relevance_search vector_store latest_msg 4 5 (8 # 10)) ;;
  let context := join " " (map page_content results) in
  let msgs := [SystemMessage (assistant_prompt +:+ context)] ++ messages state in
  response <- model_invoke msgs ;;
  ret response.

(** The compiled workflow: one node, ["chat"], run from [START], with a
    [MemorySaver] checkpointer (the [checkpoints] of the world). *)
Record CompiledGraph := { chat_node : MessagesState -> M Message }.

Definition setup_chat_workflow (vector_store : VectorStore) : CompiledGraph :=
  let process_messages (state : MessagesState) :=
    create_augmented_response state vector_store in
  {| chat_node := process_messages |}.

(** The stored history of a session; a session never used has none. *)
Definition history (thread_id : string) (w : World) : list Message :=
  default [] (checkpoints w !! thread_id).

(** [Session Store.append] *)
Definition session_append (thread_id : string) (m : Message) : M unit :=
  fun w =>
    Ok (tt, set_checkpoints
              (<[thread_id := history thread_id w ++ [m]]> (checkpoints w)) w).

(** Modelled from the spec: [app.invoke(input, config)] of the compiled
    workflow is code of the orchestration library, which is not in the
    repository. It follows the steps of the conversation manager: look up
    or create the session, append the incoming messages, run the node on
    the whole history, append the node's reply, return the final state. *)
Definition app_invoke (app : CompiledGraph) (input : list Message)
    (thread_id : string) : M MessagesState :=
  foldr (fun m k => session_append thread_id m ;;; k) (ret tt) input ;;;
  state <- (fun w => Ok ({| messages := history thread_id w |}, w)) ;;
  reply <- chat_node app state ;;
  session_append thread_id reply ;;;
  (fun w => Ok ({| messages := history thread_id w |}, w)).

Definition chat_with_memory (question : string) (app : CompiledGraph)
    (thread_id : string) : M string :=
  response <- app_invoke app [HumanMessage question] thread_id ;;
  m <- lift (last_item (messages response)) ;;
  ret (content m).

(** The text the response generator searches for: the content of the last
    message of the state, or the empty string when there is none. *)
Definition latest_query (msgs : list Message) : string :=
  match last msgs with
  | Some m => content m
  | None => ""
  end.

(** The messages the response generator hands to the model, given the
    passages retrieved. *)
Definition augmented_messages (results : list Document) (msgs : list Message)
    : list Message :=
  SystemMessage (assistant_prompt +:+ join " " (map page_content results)) :: msgs.

(** The world after a turn on session [thread_id] that succeeded: the
    question and the reply are at the end of the history, and the call of
    the model is recorded. *)
Definition turn_world (thread_id question reply : string)
    (msgs : list Message) (w : World) : World :=
  {| filesystem := filesystem w; stdout := stdout w;
     checkpoints :=
       <[thread_id := history thread_id w ++ [HumanMessage question; AIMessage reply]]>
         (checkpoints w);
     invocations := invocations w ++ [msgs] |}.

(** The history that the questions and their replies make, in order. *)
Fixpoint transcript (questions replies : list string) : list Message :=
  match questions, replies with
  | q :: qs, r :: rs => HumanMessage q :: AIMessage r :: transcript qs rs
  | _, _ => []
  end.

(** [exit] in any mix of upper and lower case. *)
Definition is_exit_token (line : string) : bool :=
  match line with
  | String c1 (String c2 (String c3 (String c4 EmptyString))) =>
      (Ascii.eqb c1 "e" || Ascii.eqb c1 "E") &&
      (Ascii.eqb c2 "x" || Ascii.eqb c2 "X") &&
      (Ascii.eqb c3 "i" || Ascii.eqb c3 "I") &&
      (Ascii.eqb c4 "t" || Ascii.eqb c4 "T")
  | _ => false
  end.

(** [x or 'Not found'] *)
Definition or_not_found (v : json) : json :=
  if truthy v then v else JStr "Not found".

(** the text an f-string puts in place of [{v}] *)
Definition format_value (v : json) : string :=
  match v with
  | JStr s => s
  | _ => py_str v
  end.

(** The metadata block of the main program ([if docs: ...]). *)
Definition show_metadata (docs : list Document) : M unit :=
  match docs with
  | [] => ret tt
  | doc0 :: _ =>
      metadata <- extract_metadata doc0 ;;
      print (nl +:+ "Document Metadata:") ;;;
      date <- lift (getitem metadata "date") ;;
      print ("Date: " +:+ format_value (or_not_found date)) ;;;
      author <- lift (getitem metadata "author") ;;
      print ("Author: " +:+ format_value (or_not_found author) +:+ nl)
  end.

Definition input_prompt : string := "Enter a question (or type 'exit' to quit): ".

(** The chat loop of the main program, run on the lines still to be read
    from the standard input; [input] at the end of the input raises. *)
Fixpoint chat_loop (app : CompiledGraph) (thread_id : string)
    (stdin : list string) : M unit :=
  write input_prompt ;;;
  match stdin with
  | [] => raise (Exn "EOFError" "EOF when reading a line")
  | question :: rest =>
      if String.eqb (lower question) "exit" then ret tt
      else
        response <- chat_with_memory question app thread_id ;;
        print (nl +:+ "Assistant: " +:+ response +:+ nl) ;;;
        chat_loop app thread_id rest
  end.

(** [n] calls of [chat_with_memory] in a row on one session. *)
Fixpoint sequential_turns (app : CompiledGraph) (thread_id : string)
    (questions : list string) : M (list string) :=
  match questions with
  | [] => ret []
  | q :: rest =>
      r <- chat_with_memory q app thread_id ;;
      rs <- sequential_turns app thread_id rest ;;
      ret (r :: rs)
  end.

End Script.

(** ** The retriever: maximal marginal relevance *)

(** [x < y] on rationals, as a test. *)
Definition Qltb (x y : Q) : bool := negb (Qle_bool y x).

Section Retriever.
Context {Passage : Type}.
Variable relevance : Passage -> Q.
Variable similarity : Passage -> Passage -> Q.
Variable lambda_mult : Q.

(** Modelled from the spec: the search method of the vector store is code
    of the vector-database library, which is not in the repository. The
    highest similarity of a candidate to an already chosen passage; with
    nothing chosen yet it is 0. *)
Definition max_similarity (c : Passage) (selected : list Passage) : Q :=
  match selected with
  | [] => 0
  | s :: rest => fold_left (fun m t => Qmax m (similarity c t)) rest (similarity c s)
  end.

(** Modelled from the spec: the score of a candidate at one step of the
    selection (the library's code is not in the repository). *)
Definition mmr_score (c : Passage) (selected : list Passage) : Q :=
  lambda_mult * relevance c - (1 - lambda_mult) * max_similarity c selected.

(** Modelled from the spec: one scan over the scores of the candidates left,
    in pool order (the library's code is not in the repository). [best_i] is
    the position of the best score seen so far; only a strictly higher score
    replaces it, so the earlier of two equal candidates stays. *)
Fixpoint best_index (scores : list Q) (i best_i : nat) (best : Q) : nat :=
  match scores with
  | [] => best_i
  | s :: rest =>
      if Qltb best s then best_index rest (S i) i s
      else best_index rest (S i) best_i best
  end.

(** Modelled from the spec: the position, in the pool of candidates left, of
    the candidate chosen at one step (the library's code is not in the
    repository). *)
Definition pick (pool selected : list Passage) : option nat :=
  match map (fun c => mmr_score c selected) pool with
  | [] => None
  | s0 :: rest => Some (best_index rest 1 0 s0)
  end.

(** Modelled from the spec: the greedy selection of [k] passages from the
    pool, given the passages already chosen (the library's code is not in
    the repository). The chosen candidate leaves the pool and joins the
    chosen ones; the output lists the choices in the order they were made. *)
Fixpoint mmr_select (k : nat) (pool selected : list Passage) : list Passage :=
  match k with
  | 0 => []
  | S k' =>
      match pick pool selected with
      | None => []
      | Some i =>
          match pool !! i with
          | Some c => c :: mmr_select k' (delete i pool) (selected ++ [c])
          | None => []
          end
      end
  end.

(** Modelled from the spec: the ranking of a pool by relevance alone, highest
    first, equal passages in pool order (an insertion sort). *)
Fixpoint insert_by_relevance (x : Passage) (ranked : list Passage) : list Passage :=
  match ranked with
  | [] => [x]
  | y :: rest =>
      if Qltb (relevance x) (relevance y)
      then y :: insert_by_relevance x rest
      else x :: ranked
  end.

Definition relevance_ranking (pool : list Passage) : list Passage :=
  foldr insert_by_relevance [] pool.

(** What it means for [out] to be a greedy selection of at most [k]
    passages from [pool] by [score], given the passages [selected] so far:
    each choice has a score no lower than every candidate left, and strictly
    higher than every candidate before it in the pool. *)
Inductive greedy_selection (score : Passage -> list Passage -> Q) :
    nat -> list Passage -> list Passage -> list Passage -> Prop :=
| greedy_done pool selected :
    greedy_selection score 0 pool selected []
| greedy_exhausted k selected :
    greedy_selection score k [] selected []
| greedy_pick k before c after selected out :
    Forall (fun x => score x selected < score c selected)%Q before ->
    Forall (fun x => score x selected <= score c selected)%Q after ->
    greedy_selection score k (before ++ after) (selected ++ [c]) out ->
    greedy_selection score (S k) (before ++ c :: after) selected (c :: out).

End Retriever.

(** Modelled from the spec: the retriever over an index (the library's code
    is not in the repository). [nearest query fetch_k] is the candidate
    pool, [relevance query] the similarity of a passage to the query. *)
Definition retrieve (nearest : string -> nat -> list Document)
    (relevance : string -> Document -> Q) (similarity : Document -> Document -> Q)
    (query : string) (k fetch_k : nat) (lambda_mult : Q) : list Document :=
  mmr_select (relevance query) similarity lambda_mult k (nearest query fetch_k) [].

Definition mmr_vector_store (nearest : string -> nat -> list Document)
    (relevance : string -> Document -> Q) (similarity : Document -> Document -> Q)
    : VectorStore :=
  {| max_marginal_relevance_search query k fetch_k lambda_mult :=
       Ok (retrieve nearest relevance similarity query k fetch_k lambda_mult) |}.

(** ** Concrete services and data, for the examples *)

(** A chat model that answers its [n]-th call with the [n]-th of the given
    replies and fails once they are used up; a [json.loads] that knows one
    document. *)
Definition demo_json_text : string :=
  "{" +:+ dq +:+ "date" +:+ dq +:+ ": " +:+ dq +:+ "2024-05-01" +:+ dq +:+ ", "
      +:+ dq +:+ "author" +:+ dq +:+ ": " +:+ dq +:+ "Jane Doe" +:+ dq +:+ "}".

Definition demo_json_value : json :=
  JDict (<["date" := JStr "2024-05-01"]> (<["author" := JStr "Jane Doe"]> ∅)).

Definition demo_externals (replies : list string) : Externals :=
  {| model_reply n _ :=
       match replies !! n with
       | Some r => Ok r
       | None => Raise (Exn "RateLimitError" "Rate limit reached for gpt-4")
       end;
     json_loads s :=
       if String.eqb s demo_json_text then Ok demo_json_value
       else Raise (Exn "JSONDecodeError" "Expecting value: line 1 column 1 (char 0)");
     py_str v :=
       match v with
       | JBool true => "True"
       | JBool false => "False"
       | _ => "None"
       end |}.

Definition empty_world : World :=
  {| filesystem := ∅; stdout := []; checkpoints := ∅; invocations := [] |}.

Definition demo_doc : Document := {| page_content := "Dear committee, ..." |}.

Definition doc_a : Document := {| page_content := "alpha" |}.
Definition doc_b : Document := {| page_content := "beta" |}.
Definition doc_c : Document := {| page_content := "gamma" |}.

Definition demo_relevance (d : Document) : Q :=
  if String.eqb (page_content d) "alpha" then 9 # 10
  else if String.eqb (page_content d) "beta" then 8 # 10
  else 5 # 10.

Definition demo_similarity (d1 d2 : Document) : Q :=
  if String.eqb (page_content d1) (page_content d2) then 1
  else if String.eqb (page_content d1) "gamma" || String.eqb (page_content d2) "gamma"
  then 1 # 10 else 9 # 10.

Definition demo_store : VectorStore :=
  mmr_vector_store (fun _ fetch_k => take fetch_k [doc_b; doc_a; doc_c])
                   (fun _ => demo_relevance) demo_similarity.

Definition demo_prior : list Message :=
  [HumanMessage "Hello"; AIMessage "Hello!"].

Definition demo_turn_messages : list Message :=
  [SystemMessage (assistant_prompt +:+ "alpha beta gamma")]
    ++ demo_prior ++ [HumanMessage "What did I just say?"].

Definition demo_questions : list string := ["Hello"; "What did I just say?"].

Definition demo_replies : list string := ["Hello!"; "You said Hello."].

Definition demo_world_after_turns : World :=
  match sequential_turns
          (@setup_chat_workflow (demo_externals demo_replies) demo_store)
          "user_session_1" demo_questions empty_world with
  | Ok (_, w') => w'
  | Raise _ => empty_world
  end.

Definition demo_fenced_reply : string :=
  " " +:+ fence +:+ (nl +:+ demo_json_text +:+ nl) +:+ fence +:+ nl.

(** The same object in a fence that names the language. *)
Definition demo_tagged_reply : string :=
  "```json" +:+ nl +:+ demo_json_text +:+ nl +:+ "```".

Definition demo_json_error : exn :=
  Exn "JSONDecodeError" "Expecting value: line 1 column 1 (char 0)".

Definition demo_disk : World :=
  {| filesystem := <["data/chroma/" := Directory ["chroma.sqlite3"]]> ∅;
     stdout := []; checkpoints := ∅; invocations := [] |}.

(** ** Document processing *)

(** The document loader and the text splitter are library objects: a
    loader is built from a path and then loaded, a splitter is built from
    its parameters and then applied; each step can raise. *)
Class Ingestion := {
  Loader : Type;
  Splitter : Type;
  (** [PyPDFLoader(path)] *)
  PyPDFLoader : string -> result Loader;
  (** [loader.load()] *)
  loader_load : Loader -> result (list Document);
  (** [RecursiveCharacterTextSplitter(chunk_size=..., chunk_overlap=..., separators=...)] *)
  RecursiveCharacterTextSplitter : Z -> Z -> list string -> result Splitter;
  (** [text_splitter.split_documents(docs)] *)
  split_documents : Splitter -> list Document -> result (list Document);
}.

Section Processing.
Context `{Ingestion}.

(** [[PyPDFLoader(path) for path in pdf_paths]] *)
Fixpoint make_loaders (pdf_paths : list string) : result (list Loader) :=
  match pdf_paths with
  | [] => Ok []
  | path :: rest =>
      match PyPDFLoader path with
      | Raise e => Raise e
      | Ok loader =>
          match make_loaders rest with
          | Raise e => Raise e
          | Ok loaders => Ok (loader :: loaders)
          end
      end
  end.

(** [for loader in loaders: docs.extend(loader.load())] *)
Fixpoint load_all (loaders : list Loader) (docs : list Document)
    : result (list Document) :=
  match loaders with
  | [] => Ok docs
  | loader :: rest =>
      match loader_load loader with
      | Raise e => Raise e
      | Ok pages => load_all rest (docs ++ pages)
      end
  end.

Definition separators : list string :=
  [nl +:+ nl; nl; "."; "!"; "?"; ";"; " "].

Definition process_documents (pdf_paths : list string)
    (chunk_size chunk_overlap : Z) : result (list Document * list Document) :=
  match make_loaders pdf_paths with
  | Raise e => Raise e
  | Ok loaders =>
      match load_all loaders [] with
      | Raise e => Raise e
      | Ok docs =>
          match RecursiveCharacterTextSplitter chunk_size chunk_overlap separators with
          | Raise e => Raise e
          | Ok text_splitter =>
              match split_documents text_splitter docs with
              | Raise e => Raise e
              | Ok splits => Ok (docs, splits)
              end
          end
      end
  end.

(** The pages of the files at the given paths, in path order, when every
    file opens and loads. *)
Fixpoint pages_of (pdf_paths : list string) : option (list Document) :=
  match pdf_paths with
  | [] => Some []
  | path :: rest =>
      match PyPDFLoader path with
      | Raise _ => None
      | Ok loader =>
          match loader_load loader, pages_of rest with
          | Ok pages, Some more => Some (pages ++ more)
          | _, _ => None
          end
      end
  end.

End Processing.

(** ** Inspecting the vector store *)

(** What [vector_store.get()] returns: the ids and the texts stored. *)
Record ChromaData := { ids : list string; documents : list string }.

(** The two methods [view_chroma_database] calls on the store. *)
Record ChromaStore := {
  (** [vector_store._collection.count()] *)
  collection_count : result nat;
  (** [vector_store.get()] *)
  chroma_get : result ChromaData;
}.

(** [seq[i]] for an index that is not negative *)
Definition item {A : Type} (l : list A) (i : nat) : result A :=
  match l !! i with
  | Some x => Ok x
  | None => Raise (Exn "IndexError" "list index out of range")
  end.

Definition document_line (doc_id text : string) : string :=
  nl +:+ "Document ID: " +:+ doc_id +:+ ", " +:+ nl +:+ "Content: " +:+ text.

(** The body of the loop of [view_chroma_database], over the indices still
    to visit. *)
Fixpoint print_documents (all_data : ChromaData) (indices : list nat) : M unit :=
  match indices with
  | [] => ret tt
  | i :: rest =>
      doc_id <- lift (item (ids all_data) i) ;;
      text <- lift (item (documents all_data) i) ;;
      print (document_line doc_id text) ;;;
      print_documents all_data rest
  end.

Definition view_chroma_database (vector_store : ChromaStore) : M unit :=
  count <- lift (collection_count vector_store) ;;
  print ("Number of documents in the Chroma database: " +:+ pretty count) ;;;
  all_data <- lift (chroma_get vector_store) ;;
  print_documents all_data (seq 0 (length (ids all_data))).

(** ** Worlds that differ in their output *)

Definition add_outputs (lines : list string) (w : World) : World :=
  {| filesystem := filesystem w; stdout := stdout w ++ lines;
     checkpoints := checkpoints w; invocations := invocations w |}.

(** The line [print] writes for an answer. *)
Definition answer_line (response : string) : string :=
  (nl +:+ "Assistant: " +:+ response +:+ nl) +:+ nl.

(** What the chat loop writes when it answers the given replies and then
    reads [exit]: a prompt and an answer for each, and a last prompt. *)
Definition loop_output (replies : list string) : list string :=
  flat_map (fun r => [input_prompt; answer_line r]) replies ++ [input_prompt].

(** ** Concrete loaders and stores, for the examples *)

Definition ingestion_demo : Ingestion :=
  {| Loader := string;
     Splitter := unit;
     PyPDFLoader path :=
       if String.eqb path "missing.pdf"
       then Raise (Exn "ValueError" "File path missing.pdf is not a valid file or url")
       else Ok path;
     loader_load path :=
       if String.eqb path "broken.pdf"
       then Raise (Exn "PdfReadError" "EOF marker not found")
       else Ok [ {| page_content := path +:+ " page 1" |};
                 {| page_content := path +:+ " page 2" |} ];
     RecursiveCharacterTextSplitter chunk_size chunk_overlap _ :=
       if (chunk_size <? chunk_overlap)%Z
       then Raise (Exn "ValueError" "Got a larger chunk overlap than chunk size")
       else Ok tt;
     split_documents _ docs := Ok docs |}.

Definition demo_chroma : ChromaStore :=
  {| collection_count := Ok 2;
     chroma_get := Ok {| ids := ["id-1"; "id-2"]; documents := ["alpha"; "beta"] |} |}.

(** A chat model that always answers. *)
Definition steady_externals : Externals :=
  {| model_reply _ _ := Ok "Understood.";
     json_loads := @json_loads (demo_externals []);
     py_str := @py_str (demo_externals []) |}.


Definition demo_disk_after_reset : World :=
  match reset_vector_store "data/chroma/" demo_disk with
  | Ok (_, w') => w'
  | Raise _ => demo_disk
  end.

Definition demo_world_after_extraction : World :=
  match @extract_metadata (demo_externals ["I found no metadata."]) demo_doc empty_world with
  | Ok (_, w') => w'
  | Raise _ => empty_world
  end.

Definition demo_world_after_response : World :=
  match @create_augmented_response (demo_externals ["Hello!"])
          {| messages := [HumanMessage "Hello"] |} demo_store empty_world with
  | Ok (_, w') => w'
  | Raise _ => empty_world
  end.

Definition demo_world_after_turn : World :=
  match chat_with_memory "Hello"
          (@setup_chat_workflow (demo_externals ["Hello!"]) demo_store)
          "user_session_1" empty_world with
  | Ok (_, w') => w'
  | Raise _ => empty_world
  end.

Definition demo_world_after_exit : World :=
  match chat_loop (@setup_chat_workflow (demo_externals []) demo_store)
          "user_session_1" ["exit"] empty_world with
  | Ok (_, w') => w'
  | Raise _ => empty_world
  end.

Definition demo_short_chroma : ChromaStore :=
  {| collection_count := Ok 2;
     chroma_get := Ok {| ids := ["id-1"; "id-2"]; documents := ["alpha"] |} |}.

(** a message that is a system instruction *)
Definition is_system (m : Message) : bool :=
  match m with
  | SystemMessage _ => true
  | _ => false
  end.

Definition demo_pages_a : list Document :=
  [ {| page_content := "a.pdf page 1" |}; {| page_content := "a.pdf page 2" |} ].

Definition demo_pages_b : list Document :=
  [ {| page_content := "b.pdf page 1" |}; {| page_content := "b.pdf page 2" |} ].

(* ===================================================================== *)
(** * Part II: properties *)
(* ===================================================================== *)

(** ** Strings *)

Lemma string_length_app (a b : string) :
  String.length (a +:+ b) = String.length a + String.length b.
Proof. induction a as [|c a IH]; simpl; [reflexivity | now rewrite IH]. Qed.

Lemma substring_skip (a b : string) (m : nat) :
  substring (String.length a) m (a +:+ b) = substring 0 m b.
Proof. induction a as [|c a IH]; simpl; [reflexivity | exact IH]. Qed.

Lemma substring_prefix (a b : string) :
  substring 0 (String.length a) (a +:+ b) = a.
Proof.
  induction a as [|c a IH]; simpl.
  - now destruct b.
  - now rewrite IH.
Qed.

Lemma lstrip_whitespace (ws s : string) :
  all_whitespace ws = true -> lstrip (ws +:+ s) = lstrip s.
Proof.
  induction ws as [|c ws IH]; simpl; [reflexivity|].
  intros [Hc Hws]%andb_prop. rewrite Hc. now apply IH.
Qed.

Lemma rstrip_whitespace_only (ws : string) :
  all_whitespace ws = true -> rstrip ws = "".
Proof.
  induction ws as [|c ws IH]; simpl; [reflexivity|].
  intros [Hc Hws]%andb_prop. now rewrite (IH Hws), Hc.
Qed.

Lemma rstrip_whitespace (s ws : string) :
  all_whitespace ws = true -> rstrip (s +:+ ws) = rstrip s.
Proof.
  intros Hws. induction s as [|c s IH]; simpl.
  - now apply rstrip_whitespace_only.
  - now rewrite IH.
Qed.

Lemma rstrip_ends_visible (s : string) (c : ascii) :
  isspace c = false -> rstrip (s +:+ String c "") = s +:+ String c "".
Proof.
  intros Hc. induction s as [|d s IH]; simpl.
  - now rewrite Hc.
  - rewrite IH. now destruct s.
Qed.

Lemma app_assoc_string (a b c : string) : (a +:+ b) +:+ c = a +:+ b +:+ c.
Proof.
  induction a as [|x a IH]; [reflexivity|].
  change (String x ((a +:+ b) +:+ c) = String x (a +:+ b +:+ c)).
  now rewrite IH.
Qed.

(** A reply made of a fenced text with white space around it: what [strip],
    the two tests and the slice make of it. *)
Lemma strip_fenced (ws1 c ws2 : string) :
  all_whitespace ws1 = true -> all_whitespace ws2 = true ->
  strip (ws1 +:+ "```" +:+ c +:+ "```" +:+ ws2) = "```" +:+ c +:+ "```".
Proof.
  intros H1 H2. unfold strip. rewrite lstrip_whitespace by exact H1.
  change (lstrip ("```" +:+ c +:+ "```" +:+ ws2))
    with ("```" +:+ c +:+ "```" +:+ ws2).
  replace ("```" +:+ c +:+ "```" +:+ ws2)
    with ((("```" +:+ c +:+ "``") +:+ "`") +:+ ws2)
    by (now rewrite !app_assoc_string).
  rewrite rstrip_whitespace by exact H2.
  rewrite rstrip_ends_visible by reflexivity.
  now rewrite !app_assoc_string.
Qed.

Lemma endswith_fence (a : string) : endswith (a +:+ "```") "```" = true.
Proof.
  unfold endswith. rewrite string_length_app. simpl String.length.
  replace (String.length a + 3 - 3) with (String.length a) by lia.
  rewrite substring_skip.
  apply andb_true_intro. split; [apply Nat.leb_le; lia | reflexivity].
Qed.

Lemma slice_index_3 (len : nat) : slice_index len 3 = Nat.min len 3.
Proof. reflexivity. Qed.

Lemma slice_index_minus_3 (len : nat) : slice_index len (-3) = len - 3.
Proof. unfold slice_index. change (-3 <? 0)%Z with true. cbv iota. lia. Qed.

Lemma slice_fenced (c : string) : slice ("```" +:+ c +:+ "```") 3 (-3) = c.
Proof.
  unfold slice. rewrite slice_index_3, slice_index_minus_3, !string_length_app.
  change (String.length "```") with 3.
  replace (Nat.min (3 + (String.length c + 3)) 3) with 3 by lia.
  replace (3 + (String.length c + 3) - 3 - 3) with (String.length c) by lia.
  change (substring 3 (String.length c) ("```" +:+ c +:+ "```"))
    with (substring 0 (String.length c) (c +:+ "```")).
  apply substring_prefix.
Qed.

(** ** The metadata extractor *)

Section Extraction.
Context `{Externals}.

Lemma model_invoke_ok (msgs : list Message) (w : World) (text : string) :
  model_reply (length (invocations w)) msgs = Ok text ->
  model_invoke msgs w = Ok (AIMessage text, add_invocation msgs w).
Proof. intros Hr. unfold model_invoke. now rewrite Hr. Qed.

Lemma model_invoke_raise (msgs : list Message) (w : World) (e : exn) :
  model_reply (length (invocations w)) msgs = Raise e ->
  model_invoke msgs w = Raise e.
Proof. intros Hr. unfold model_invoke. now rewrite Hr. Qed.

(** The fallback value is the object with both fields null. *)
Lemma null_metadata_fields :
  getitem null_metadata "date" = Ok JNull /\
  getitem null_metadata "author" = Ok JNull.
Proof. split; reflexivity. Qed.

(** With white space around it or not, a fenced reply is parsed as the
    text between the two fences, stripped. *)
Lemma parse_reply_fenced (ws1 c ws2 : string) :
  all_whitespace ws1 = true -> all_whitespace ws2 = true ->
  parse_reply (ws1 +:+ fence +:+ c +:+ fence +:+ ws2) = json_loads (strip c).
Proof.
  intros H1 H2. unfold parse_reply, fence.
  rewrite strip_fenced by assumption.
  change (startswith ("```" +:+ c +:+ "```") "```") with true.
  rewrite <- (app_assoc_string "```" c "```") at 1.
  rewrite endswith_fence. cbn [andb].
  now rewrite slice_fenced.
Qed.

(** What [extract_metadata] does, by the outcome of the model call and of
    the parse. *)
Lemma extract_metadata_cases (doc : Document) (w : World) :
  extract_metadata doc w =
  match model_reply (length (invocations w)) (extraction_messages doc) with
  | Raise e => Raise e
  | Ok reply =>
      let w1 := add_invocation (extraction_messages doc) w in
      match parse_reply reply with
      | Ok metadata => Ok (metadata, w1)
      | Raise e =>
          Ok (null_metadata,
              add_output ("Error parsing metadata: " +:+ exn_msg e +:+ nl) w1)
      end
  end.
Proof.
  unfold extract_metadata, bind, model_invoke.
  destruct (model_reply _ _) as [reply|e]; [|reflexivity].
  cbn [content]. destruct (parse_reply reply) as [v|e]; reflexivity.
Qed.

(** The case the code handles: three backquotes, a text, three backquotes,
    with or without white space around them. The extractor removes the
    backquotes before it parses; when the text between them is a
    well-formed object, that object is returned and no failure is
    reported. *)
Theorem fenced_reply_is_unwrapped
    (doc : Document) (w : World) (ws1 c ws2 : string) (v : json) :
  all_whitespace ws1 = true -> all_whitespace ws2 = true ->
  model_reply (length (invocations w)) (extraction_messages doc)
    = Ok (ws1 +:+ fence +:+ c +:+ fence +:+ ws2) ->
  json_loads (strip c) = Ok v ->
  parse_reply (ws1 +:+ fence +:+ c +:+ fence +:+ ws2) = Ok v /\
  extract_metadata doc w = Ok (v, add_invocation (extraction_messages doc) w).
Proof.
  intros H1 H2 Hreply Hjson.
  assert (Hp : parse_reply (ws1 +:+ fence +:+ c +:+ fence +:+ ws2) = Ok v)
    by (rewrite parse_reply_fenced by assumption; exact Hjson).
  split; [exact Hp|].
  rewrite extract_metadata_cases, Hreply. cbv zeta. now rewrite Hp.
Qed.

(** C5. When the reply of the model does not parse, [extract_metadata]
    raises nothing: it prints the error and returns the object whose date
    and author are both null. *)
Theorem parse_failure_fails_soft
    (doc : Document) (w : World) (reply : string) (e : exn) :
  model_reply (length (invocations w)) (extraction_messages doc) = Ok reply ->
  parse_reply reply = Raise e ->
  extract_metadata doc w =
    Ok (null_metadata,
        add_output ("Error parsing metadata: " +:+ exn_msg e +:+ nl)
          (add_invocation (extraction_messages doc) w)) /\
  getitem null_metadata "date" = Ok JNull /\
  getitem null_metadata "author" = Ok JNull.
Proof.
  intros Hreply Hparse. split; [|exact null_metadata_fields].
  rewrite extract_metadata_cases, Hreply. cbv zeta. now rewrite Hparse.
Qed.

(** C6, as amended. An error of the parse is recovered inside
    [extract_metadata], and the main program then prints both fields as
    "Not found"; an error of the model call is not recovered: it leaves
    [extract_metadata] and the metadata block of the main program. *)
Theorem extraction_error_outcomes (doc : Document) (docs : list Document) (w : World) :
  match model_reply (length (invocations w)) (extraction_messages doc) with
  | Raise e =>
      extract_metadata doc w = Raise e /\
      show_metadata (doc :: docs) w = Raise e
  | Ok reply =>
      let w1 := add_invocation (extraction_messages doc) w in
      match parse_reply reply with
      | Raise e =>
          (exists w2, extract_metadata doc w = Ok (null_metadata, w2)) /\
          show_metadata (doc :: docs) w = Ok (tt, not_found_report e w1)
      | Ok metadata => extract_metadata doc w = Ok (metadata, w1)
      end
  end.
Proof.
  pose proof (extract_metadata_cases doc w) as Hx.
  unfold show_metadata, bind.
  destruct (model_reply _ _) as [reply|e].
  - cbv zeta in *. destruct (parse_reply reply) as [v|e]; [exact Hx|].
    split; [eexists; exact Hx|]. now rewrite Hx.
  - now rewrite Hx.
Qed.

End Extraction.

(** Only the backquotes are removed: what follows the opening three, a
    language tag or further backquotes, stays at the head of the text that
    is parsed. *)
Lemma tagged_fence_keeps_tag `{Externals} (tag body : string) :
  parse_reply (fence +:+ tag +:+ nl +:+ body +:+ fence)
    = json_loads (strip (tag +:+ nl +:+ body)).
Proof.
  pose proof (parse_reply_fenced "" (tag +:+ nl +:+ body) "" eq_refl eq_refl) as Hp.
  rewrite !app_assoc_string in Hp. exact Hp.
Qed.

(** C7. A reply that is a well-formed object in a fence that names the
    language, as chat models write it: the extractor removes the three
    backquotes on each side and leaves the tag, so the text it parses is
    not the object; the parse fails and the null object comes back, though
    the object enclosed parses on its own. *)
Theorem tagged_fence_loses_metadata :
  @json_loads (demo_externals [demo_tagged_reply]) demo_json_text
    = Ok demo_json_value /\
  @parse_reply (demo_externals [demo_tagged_reply]) demo_tagged_reply
    = @json_loads (demo_externals [demo_tagged_reply])
        ("json" +:+ nl +:+ demo_json_text) /\
  @extract_metadata (demo_externals [demo_tagged_reply]) demo_doc empty_world
    = Ok (null_metadata,
          add_output ("Error parsing metadata: " +:+ exn_msg demo_json_error +:+ nl)
            (add_invocation (extraction_messages demo_doc) empty_world)) /\
  null_metadata <> demo_json_value.
Proof.
  split; [reflexivity|]. split.
  - unfold demo_tagged_reply.
    change ("```json" +:+ nl +:+ demo_json_text +:+ nl +:+ "```")
      with (fence +:+ "json" +:+ nl +:+ (demo_json_text +:+ nl) +:+ fence).
    rewrite tagged_fence_keeps_tag. reflexivity.
  - split; [reflexivity|].
    intros Heq. pose proof (f_equal (fun v => getitem v "date") Heq) as Hdate.
    discriminate Hdate.
Qed.

(** ** Resetting the vector store *)

Lemma reset_absent (dir : string) (w : World) :
  filesystem w !! dir = None ->
  reset_vector_store dir w =
    Ok (tt, add_output ("No existing vector store found at '" +:+ dir +:+ "'." +:+ nl) w).
Proof.
  intros Hd. unfold reset_vector_store, bind, path_exists.
  rewrite Hd. unfold print, write. now rewrite !app_assoc_string.
Qed.

Lemma reset_directory (dir : string) (w : World) (records : list string) :
  filesystem w !! dir = Some (Directory records) ->
  reset_vector_store dir w =
    Ok (tt, add_output ("Vector store at '" +:+ dir +:+ "' has been reset." +:+ nl)
              (set_filesystem (delete dir (filesystem w)) w)).
Proof.
  intros Hd. unfold reset_vector_store, bind, path_exists, rmtree.
  rewrite Hd. cbv beta iota. rewrite Hd.
  unfold print, write. now rewrite !app_assoc_string.
Qed.

(** C8. On a location that holds a store, [reset_vector_store] deletes the
    location with all its records; on a location that does not exist it
    changes nothing in the file system; neither raises, and a second reset
    right after the first leaves the file system as the first left it. *)
Theorem reset_vector_store_idempotent (dir : string) (w : World) :
  filesystem w !! dir <> Some RegularFile ->
  exists w1 w2,
    reset_vector_store dir w = Ok (tt, w1) /\
    filesystem w1 = delete dir (filesystem w) /\
    filesystem w1 !! dir = None /\
    (filesystem w !! dir = None -> filesystem w1 = filesystem w) /\
    reset_vector_store dir w1 = Ok (tt, w2) /\
    filesystem w2 = filesystem w1.
Proof.
  intros Hfile.
  destruct (filesystem w !! dir) as [[|records]|] eqn:Hd.
  - now contradict Hfile.
  - eexists _, _. split; [apply (reset_directory _ _ _ Hd)|].
    cbn [filesystem add_output set_filesystem].
    split; [reflexivity|]. split; [apply lookup_delete_eq|].
    split; [intros; discriminate|].
    split; [apply reset_absent; cbn; apply lookup_delete_eq|reflexivity].
  - eexists _, _. split; [apply (reset_absent _ _ Hd)|].
    cbn [filesystem add_output].
    split; [symmetry; now apply delete_id|]. split; [exact Hd|].
    split; [reflexivity|].
    split; [apply reset_absent; exact Hd|reflexivity].
Qed.

(** ** The response generator *)

Section Chat.
Context `{Externals}.

Lemma last_item_snoc {A : Type} (l : list A) (x : A) : last_item (l ++ [x]) = Ok x.
Proof. unfold last_item. now rewrite last_snoc. Qed.

Lemma last_item_nonempty {A : Type} (x : A) (l : list A) :
  exists y, last (x :: l) = Some y /\ last_item (x :: l) = Ok y.
Proof.
  destruct (last (x :: l)) as [y|] eqn:Hl.
  - exists y. split; [reflexivity|]. unfold last_item. now rewrite Hl.
  - apply last_None in Hl. discriminate.
Qed.

(** What [create_augmented_response] does on any state, by the outcome of
    the search and of the model call; reading the last message never
    raises. *)
Lemma create_augmented_response_cases
    (msgs : list Message) (vector_store : VectorStore) (w : World) :
  create_augmented_response {| messages := msgs |} vector_store w =
  match max_marginal_relevance_search vector_store (latest_query msgs) 4 5 (8 # 10) with
  | Raise e => Raise e
  | Ok results => model_invoke (augmented_messages results msgs) w
  end.
Proof.
  unfold create_augmented_response, bind, lift, ret, latest_query. cbn [messages].
  destruct msgs as [|m msgs].
  - cbn [last]. destruct (max_marginal_relevance_search _ _ _ _ _); [|reflexivity].
    unfold augmented_messages. cbn [app]. now destruct (model_invoke _ w) as [[? ?]|].
  - destruct (last_item_nonempty m msgs) as (y & Hl & Hi). rewrite Hi, Hl.
    destruct (max_marginal_relevance_search _ _ _ _ _); [|reflexivity].
    unfold augmented_messages. cbn [app]. now destruct (model_invoke _ w) as [[? ?]|].
Qed.

(** C10. On a state without messages the response generator does not fail
    on the missing last element: it searches for the empty string and then
    calls the model with the system instruction alone; only the search or
    the model can make it raise. *)
Theorem empty_state_is_answered (vector_store : VectorStore) (w : World) :
  create_augmented_response {| messages := [] |} vector_store w =
  match max_marginal_relevance_search vector_store "" 4 5 (8 # 10) with
  | Raise e => Raise e
  | Ok results =>
      let msgs :=
        [SystemMessage (assistant_prompt +:+ join " " (map page_content results))] in
      match model_reply (length (invocations w)) msgs with
      | Ok text => Ok (AIMessage text, add_invocation msgs w)
      | Raise e => Raise e
      end
  end.
Proof. now rewrite create_augmented_response_cases. Qed.

(** C3. On a history that ends with the user's new message, the response
    generator calls the model once, with one system instruction followed by
    the whole history, new message included; the instruction carries the
    texts of the passages retrieved for that message, in retrieval order,
    with one space between them. *)
Theorem model_sees_context_then_history
    (vector_store : VectorStore) (prior : list Message) (question : string)
    (w : World) (results : list Document) (text : string) :
  max_marginal_relevance_search vector_store question 4 5 (8 # 10) = Ok results ->
  model_reply (length (invocations w))
    ([SystemMessage (assistant_prompt +:+ join " " (map page_content results))]
       ++ prior ++ [HumanMessage question]) = Ok text ->
  exists w',
    create_augmented_response
      {| messages := prior ++ [HumanMessage question] |} vector_store w
      = Ok (AIMessage text, w') /\
    invocations w' =
      invocations w ++
      [[SystemMessage (assistant_prompt +:+ join " " (map page_content results))]
         ++ prior ++ [HumanMessage question]] /\
    checkpoints w' = checkpoints w /\ stdout w' = stdout w.
Proof.
  intros Hsearch Hmodel. rewrite create_augmented_response_cases.
  unfold latest_query. rewrite last_snoc. cbn [content]. rewrite Hsearch.
  eexists. split; [apply model_invoke_ok; exact Hmodel|]. now cbn.
Qed.

End Chat.
Section Session.
Context `{Externals}.

Lemma chat_with_memory_cases
    (vector_store : VectorStore) (thread_id question : string) (w : World) :
  chat_with_memory question (setup_chat_workflow vector_store) thread_id w =
  match max_marginal_relevance_search vector_store question 4 5 (8 # 10) with
  | Raise e => Raise e
  | Ok results =>
      let msgs :=
        augmented_messages results (history thread_id w ++ [HumanMessage question]) in
      match model_reply (length (invocations w)) msgs with
      | Raise e => Raise e
      | Ok text => Ok (text, turn_world thread_id question text msgs w)
      end
  end.
Proof.
  unfold chat_with_memory, app_invoke, setup_chat_workflow. cbn [chat_node foldr].
  unfold bind at 1 2 3. unfold session_append at 1. unfold ret at 1.
  cbv beta iota. 
  set (w1 := set_checkpoints _ w).
  assert (Hh1 : history thread_id w1 = history thread_id w ++ [HumanMessage question]).
  { unfold history at 1. subst w1. cbn [checkpoints set_checkpoints].
    now rewrite lookup_insert_eq. }
  unfold bind at 1. rewrite Hh1.
  unfold bind at 1.
  rewrite create_augmented_response_cases.
  unfold latest_query. rewrite last_snoc. cbn [content].
  destruct (max_marginal_relevance_search _ _ _ _ _) as [results|e]; [|reflexivity].
  cbv zeta. unfold model_invoke.
  change (invocations w1) with (invocations w).
  destruct (model_reply _ _) as [text|e]; [|reflexivity].
  set (msgs := augmented_messages _ _).
  unfold bind at 1. unfold session_append.
  set (w2 := add_invocation msgs w1).
  assert (Hh2 : history thread_id w2 = history thread_id w ++ [HumanMessage question])
    by exact Hh1.
  rewrite Hh2. cbv beta iota.
  unfold history at 1. cbn [checkpoints set_checkpoints]. rewrite lookup_insert_eq.
  cbn [default messages]. unfold bind, lift, ret.
  unfold id. rewrite last_item_snoc. cbn [content].
  do 2 f_equal. unfold turn_world, set_checkpoints. subst w2 w1. cbn.
  f_equal. rewrite insert_insert_eq. now rewrite <- app_assoc.
Qed.

Lemma history_turn_world (thread_id question reply : string)
    (msgs : list Message) (w : World) :
  history thread_id (turn_world thread_id question reply msgs w) =
  history thread_id w ++ [HumanMessage question; AIMessage reply].
Proof. unfold history at 1. cbn. now rewrite lookup_insert_eq. Qed.

Lemma transcript_length (questions replies : list string) :
  length replies = length questions ->
  length (transcript questions replies) = 2 * length questions.
Proof.
  revert replies. induction questions as [|q qs IH]; intros [|r rs] Hl;
    try discriminate; [reflexivity|].
  cbn [transcript length]. rewrite IH by (cbn in Hl; lia). lia.
Qed.

Lemma transcript_lookup (questions replies : list string) (i : nat) (q r : string) :
  questions !! i = Some q -> replies !! i = Some r ->
  transcript questions replies !! (2 * i) = Some (HumanMessage q) /\
  transcript questions replies !! (2 * i + 1) = Some (AIMessage r).
Proof.
  revert replies i. induction questions as [|q0 qs IH]; intros [|r0 rs] [|i] Hq Hr;
    try discriminate.
  - cbn in Hq, Hr. injection Hq as ->. injection Hr as ->. now split.
  - cbn in Hq, Hr. replace (2 * S i) with (S (S (2 * i))) by lia.
    cbn [transcript]. exact (IH rs i Hq Hr).
Qed.

Lemma sequential_turns_history
    (vector_store : VectorStore) (thread_id : string) (questions : list string) :
  forall (w : World) (replies : list string) (w' : World),
    sequential_turns (setup_chat_workflow vector_store) thread_id questions w
      = Ok (replies, w') ->
    length replies = length questions /\
    history thread_id w' = history thread_id w ++ transcript questions replies.
Proof.
  induction questions as [|q qs IH]; intros w replies w' Hrun.
  - injection Hrun as <- <-. split; [reflexivity|]. cbn. now rewrite app_nil_r.
  - cbn [sequential_turns] in Hrun. unfold bind at 1 in Hrun.
    rewrite chat_with_memory_cases in Hrun.
    destruct (max_marginal_relevance_search _ _ _ _ _) as [results|]; [|discriminate].
    cbv zeta in Hrun. destruct (model_reply _ _) as [text|]; [|discriminate].
    unfold bind, ret in Hrun.
    destruct (sequential_turns _ _ qs _) as [[rs w0]|] eqn:Hrest; [|discriminate].
    injection Hrun as <- <-. apply IH in Hrest as [Hlen Hhist].
    split; [cbn; lia|].
    rewrite Hhist, history_turn_world, <- app_assoc. reflexivity.
Qed.

(** The turns succeed whenever the search and the model do. *)
Lemma sequential_turns_succeed
    (vector_store : VectorStore) (thread_id : string) (questions : list string) :
  (forall q, exists results,
      max_marginal_relevance_search vector_store q 4 5 (8 # 10) = Ok results) ->
  (forall n msgs, exists text, model_reply n msgs = Ok text) ->
  forall w, exists replies w',
    sequential_turns (setup_chat_workflow vector_store) thread_id questions w
      = Ok (replies, w').
Proof.
  intros Hsearch Hmodel. induction questions as [|q qs IH]; intros w.
  - now exists [], w.
  - cbn [sequential_turns]. unfold bind at 1. rewrite chat_with_memory_cases.
    destruct (Hsearch q) as [results ->]. cbv zeta.
    destruct (Hmodel (length (invocations w))
                (augmented_messages results (history thread_id w ++ [HumanMessage q])))
      as [text ->].
    destruct (IH (turn_world thread_id q text
                    (augmented_messages results
                       (history thread_id w ++ [HumanMessage q])) w))
      as (rs & w' & Hrest).
    exists (text :: rs), w'. unfold bind, ret. now rewrite Hrest.
Qed.

(** C4. After [n] turns in a row on one session, all successful, the
    stored history is the history before them followed by the [n] pairs of
    question and reply, in the order of the turns; on a session that was
    empty it has exactly [2 * n] messages, a user message at each even
    position and the assistant's reply right after it. *)
Theorem n_turns_make_2n_messages
    (vector_store : VectorStore) (thread_id : string) (questions : list string)
    (w : World) (replies : list string) (w' : World) :
  sequential_turns (setup_chat_workflow vector_store) thread_id questions w
    = Ok (replies, w') ->
  length replies = length questions /\
  history thread_id w' = history thread_id w ++ transcript questions replies /\
  (history thread_id w = [] ->
   length (history thread_id w') = 2 * length questions /\
   forall i q r, questions !! i = Some q -> replies !! i = Some r ->
     history thread_id w' !! (2 * i) = Some (HumanMessage q) /\
     history thread_id w' !! (2 * i + 1) = Some (AIMessage r)).
Proof.
  intros Hrun. destruct (sequential_turns_history _ _ _ _ _ _ Hrun) as [Hlen Hhist].
  split; [exact Hlen|]. split; [exact Hhist|].
  intros Hempty. rewrite Hhist, Hempty. cbn [app].
  split; [now apply transcript_length | apply transcript_lookup].
Qed.

End Session.

(** ** The chat loop *)

Lemma lower_char_e (c : ascii) :
  Ascii.eqb (lower_char c) "e" = Ascii.eqb c "e" || Ascii.eqb c "E".
Proof. destruct c as [[] [] [] [] [] [] [] []]; vm_compute; reflexivity. Qed.

Lemma lower_char_x (c : ascii) :
  Ascii.eqb (lower_char c) "x" = Ascii.eqb c "x" || Ascii.eqb c "X".
Proof. destruct c as [[] [] [] [] [] [] [] []]; vm_compute; reflexivity. Qed.

Lemma lower_char_i (c : ascii) :
  Ascii.eqb (lower_char c) "i" = Ascii.eqb c "i" || Ascii.eqb c "I".
Proof. destruct c as [[] [] [] [] [] [] [] []]; vm_compute; reflexivity. Qed.

Lemma lower_char_t (c : ascii) :
  Ascii.eqb (lower_char c) "t" = Ascii.eqb c "t" || Ascii.eqb c "T".
Proof. destruct c as [[] [] [] [] [] [] [] []]; vm_compute; reflexivity. Qed.

(** The test of the loop, [question.lower() == 'exit'], holds exactly of
    the sixteen spellings of the token. *)
Lemma lower_is_exit (line : string) :
  String.eqb (lower line) "exit" = is_exit_token line.
Proof.
  destruct line as [|c1 [|c2 [|c3 [|c4 [|c5 rest]]]]];
    cbn [lower String.eqb is_exit_token];
    rewrite ?lower_char_e, ?lower_char_x, ?lower_char_i, ?lower_char_t;
    repeat match goal with
           | |- context [Ascii.eqb ?a ?b || Ascii.eqb ?a ?c] =>
               destruct (Ascii.eqb a b || Ascii.eqb a c); cbn
           end; reflexivity.
Qed.

(** C9. The loop writes its prompt and reads a line. If the line is
    [exit] in any mix of cases the loop ends there: nothing more is read and
    the model is not called. Any other line is a question and is answered:
    passages are searched for it, the model is called with the system
    instruction, the history of the session and the question, question and
    reply join the history, the reply is printed after "Assistant: ", and
    the loop goes on with the next line. An error of the search or of the
    model ends the loop. *)
Theorem chat_loop_dispatch `{Externals}
    (vector_store : VectorStore) (thread_id line : string)
    (rest : list string) (w : World) :
  chat_loop (setup_chat_workflow vector_store) thread_id (line :: rest) w =
  if is_exit_token line then Ok (tt, add_output input_prompt w)
  else
    let w0 := add_output input_prompt w in
    match max_marginal_relevance_search vector_store line 4 5 (8 # 10) with
    | Raise e => Raise e
    | Ok results =>
        let msgs :=
          [SystemMessage (assistant_prompt +:+ join " " (map page_content results))]
            ++ history thread_id w0 ++ [HumanMessage line] in
        match model_reply (length (invocations w0)) msgs with
        | Raise e => Raise e
        | Ok reply =>
            chat_loop (setup_chat_workflow vector_store) thread_id rest
              (add_output ((nl +:+ "Assistant: " +:+ reply +:+ nl) +:+ nl)
                 (turn_world thread_id line reply msgs w0))
        end
    end.
Proof.
  cbn [chat_loop]. unfold bind at 1. unfold write at 1.
  rewrite lower_is_exit. destruct (is_exit_token line); [reflexivity|].
  unfold bind at 1. rewrite chat_with_memory_cases.
  destruct (max_marginal_relevance_search _ _ _ _ _) as [results|e]; [|reflexivity].
  cbv zeta. unfold augmented_messages. cbn [app].
  destruct (model_reply _ _) as [reply|e]; reflexivity.
Qed.

(** At the end of the input, [input] raises. *)
Lemma chat_loop_eof (app : CompiledGraph) (thread_id : string) (w : World) :
  chat_loop app thread_id [] w = Raise (Exn "EOFError" "EOF when reading a line").
Proof. reflexivity. Qed.

(** ** The retriever *)

Lemma Qltb_lt (x y : Q) : Qltb x y = true <-> (x < y)%Q.
Proof.
  unfold Qltb. rewrite negb_true_iff. split.
  - intros Hb. apply Qnot_le_lt. intros Hle.
    apply Qle_bool_iff in Hle. congruence.
  - intros Hlt. destruct (Qle_bool y x) eqn:Hb; [|reflexivity].
    apply Qle_bool_iff in Hb. now apply Qlt_not_le in Hlt.
Qed.

Lemma Qltb_ge (x y : Q) : Qltb x y = false <-> (y <= x)%Q.
Proof.
  unfold Qltb. rewrite negb_false_iff. apply Qle_bool_iff.
Qed.

Section RetrieverFacts.
Context {Passage : Type}.
Variable relevance : Passage -> Q.
Variable similarity : Passage -> Passage -> Q.
Variable lambda_mult : Q.

Local Abbreviation score := (mmr_score relevance similarity lambda_mult).

(** The scan keeps this invariant: of the candidates seen, the best one so
    far beats strictly all those before it and is not beaten by those
    after it. *)
Lemma best_index_split (f : Passage -> Q) (rest : list Passage) :
  forall (before : list Passage) (c : Passage) (after : list Passage),
    Forall (fun x => f x < f c)%Q before ->
    Forall (fun x => f x <= f c)%Q after ->
    exists before' c' after',
      before ++ c :: after ++ rest = before' ++ c' :: after' /\
      best_index (map f rest) (length (before ++ c :: after)) (length before) (f c)
        = length before' /\
      Forall (fun x => f x < f c')%Q before' /\
      Forall (fun x => f x <= f c')%Q after'.
Proof.
  induction rest as [|s rest IH]; intros before c after Hb Ha.
  - exists before, c, after. rewrite app_nil_r. now cbn.
  - cbn [map best_index]. destruct (Qltb (f c) (f s)) eqn:Hcmp.
    + apply Qltb_lt in Hcmp.
      destruct (IH (before ++ c :: after) s []) as (b' & c' & a' & Heq & Hidx & Hb' & Ha').
      * apply Forall_app. split; [|constructor].
        -- eapply Forall_impl; [exact Hb|]. cbn. intros x Hx. now apply Qlt_trans with (f c).
        -- exact Hcmp.
        -- eapply Forall_impl; [exact Ha|]. cbn. intros x Hx.
           now apply Qle_lt_trans with (f c).
      * constructor.
      * exists b', c', a'. split; [|split; [|split]]; try assumption.
        -- rewrite <- Heq. now rewrite <- !app_assoc.
        -- rewrite <- Hidx. f_equal. rewrite !length_app. cbn. lia.
    + apply Qltb_ge in Hcmp.
      destruct (IH before c (after ++ [s])) as (b' & c' & a' & Heq & Hidx & Hb' & Ha').
      * exact Hb.
      * apply Forall_app. split; [exact Ha|]. now constructor.
      * exists b', c', a'. split; [|split; [|split]]; try assumption.
        -- rewrite <- Heq. now rewrite <- !app_assoc.
        -- rewrite <- Hidx. f_equal. rewrite !length_app. cbn. rewrite !length_app. cbn. lia.
Qed.

Lemma pick_split (pool selected : list Passage) :
  match pick relevance similarity lambda_mult pool selected with
  | None => pool = []
  | Some i =>
      exists before c after,
        pool = before ++ c :: after /\ i = length before /\
        Forall (fun x => score x selected < score c selected)%Q before /\
        Forall (fun x => score x selected <= score c selected)%Q after
  end.
Proof.
  unfold pick. destruct pool as [|c0 rest]; [reflexivity|]. cbn [map].
  destruct (best_index_split (fun c => score c selected) rest [] c0 [])
    as (b' & c' & a' & Heq & Hidx & Hb' & Ha'); [constructor..|].
  exists b', c', a'. cbn in Heq, Hidx. now rewrite Hidx.
Qed.

(** The selection is greedy, whatever has been selected before. *)
Lemma mmr_select_greedy (k : nat) :
  forall pool selected,
    greedy_selection score k pool selected
      (mmr_select relevance similarity lambda_mult k pool selected).
Proof.
  induction k as [|k IH]; intros pool selected; [constructor|].
  cbn [mmr_select]. pose proof (pick_split pool selected) as Hp.
  destruct (pick _ _ _ pool selected) as [i|].
  - destruct Hp as (before & c & after & -> & -> & Hb & Ha).
    rewrite list_lookup_middle by reflexivity. rewrite delete_middle.
    now constructor.
  - subst pool. constructor.
Qed.

Lemma greedy_selection_length (f : Passage -> list Passage -> Q)
    (k : nat) (pool selected out : list Passage) :
  greedy_selection f k pool selected out -> length out = Nat.min k (length pool).
Proof.
  induction 1 as [| |k before c after selected out Hb Ha Hrec IH].
  - reflexivity.
  - cbn. lia.
  - cbn [length]. rewrite IH, !length_app. cbn [length]. lia.
Qed.

(** [max_similarity] of a candidate to a non-empty selection is the
    similarity to one of the selected passages and is not exceeded by the
    similarity to any of them. *)
Lemma fold_max_bounds (c : Passage) (rest : list Passage) :
  forall m : Q,
    let r := fold_left (fun m t => Qmax m (similarity c t)) rest m in
    (m <= r)%Q /\ Forall (fun t => similarity c t <= r)%Q rest /\
    (r == m \/ Exists (fun t => r == similarity c t) rest)%Q.
Proof.
  induction rest as [|t rest IH]; intros m; cbn.
  - split; [apply Qle_refl|]. split; [constructor | now left].
  - destruct (IH (Qmax m (similarity c t))) as (Hge & Hall & Hex).
    split; [eapply Qle_trans; [apply Q.le_max_l|exact Hge]|].
    split.
    + constructor; [|exact Hall]. eapply Qle_trans; [apply Q.le_max_r|exact Hge].
    + destruct Hex as [Heq|Hex]; [|right; now constructor 2].
      destruct (Q.max_dec m (similarity c t)) as [Hm|Hm].
      * left. now rewrite Heq.
      * right. constructor 1. now rewrite Heq.
Qed.

Lemma max_similarity_bounds (c s : Passage) (selected : list Passage) :
  Forall (fun t => similarity c t <= max_similarity similarity c (s :: selected))%Q
    (s :: selected) /\
  Exists (fun t => max_similarity similarity c (s :: selected) == similarity c t)%Q
    (s :: selected).
Proof.
  cbn [max_similarity].
  destruct (fold_max_bounds c selected (similarity c s)) as (Hge & Hall & Hex).
  split; [now constructor|].
  destruct Hex as [Heq|Hex]; [now constructor 1 | now constructor 2].
Qed.

End RetrieverFacts.

(** C1. The output of the retriever is a greedy selection from the pool
    fetched for the query: each passage in it, in the order of the output,
    was the candidate with the highest value of
    [lambda * relevance - (1 - lambda) * max_similarity] among those left,
    the earliest of them in the pool when several had that value; and
    [max_similarity] to the empty selection is 0, so the first choice
    carries no penalty. *)
Theorem retrieve_is_greedy_selection
    (nearest : string -> nat -> list Document)
    (relevance : string -> Document -> Q)
    (similarity : Document -> Document -> Q)
    (query : string) (k fetch_k : nat) (lambda_mult : Q) :
  greedy_selection
    (fun c selected =>
       lambda_mult * relevance query c
       - (1 - lambda_mult) * max_similarity similarity c selected)%Q
    k (nearest query fetch_k) []
    (retrieve nearest relevance similarity query k fetch_k lambda_mult) /\
  (forall c, max_similarity similarity c [] = 0%Q) /\
  (forall c s selected,
      Forall (fun t => similarity c t <= max_similarity similarity c (s :: selected))%Q
        (s :: selected) /\
      Exists (fun t => max_similarity similarity c (s :: selected) == similarity c t)%Q
        (s :: selected)) /\
  length (retrieve nearest relevance similarity query k fetch_k lambda_mult)
    = Nat.min k (length (nearest query fetch_k)).
Proof.
  pose proof (mmr_select_greedy (relevance query) similarity lambda_mult k
                (nearest query fetch_k) []) as Hg.
  split; [exact Hg|]. split; [reflexivity|].
  split; [intros; apply max_similarity_bounds|].
  exact (greedy_selection_length _ _ _ _ _ Hg).
Qed.

Section RankingFacts.
Context {Passage : Type}.
Variable relevance : Passage -> Q.

Local Abbreviation ranking := (relevance_ranking relevance).
Local Abbreviation insert := (insert_by_relevance relevance).

Lemma insert_front (c : Passage) (ranked : list Passage) :
  Forall (fun y => relevance y <= relevance c)%Q ranked ->
  insert c ranked = c :: ranked.
Proof.
  intros Hall. destruct ranked as [|y rest]; [reflexivity|].
  cbn [insert_by_relevance]. apply Forall_cons in Hall as [Hy _].
  apply Qltb_ge in Hy. now rewrite Hy.
Qed.

Lemma insert_Forall (P : Passage -> Prop) (x : Passage) (ranked : list Passage) :
  P x -> Forall P ranked -> Forall P (insert x ranked).
Proof.
  intros Hx. induction 1 as [|y rest Hy Hrest IH]; cbn [insert_by_relevance].
  - now constructor.
  - destruct (Qltb _ _); repeat constructor; assumption.
Qed.

Lemma ranking_Forall (P : Passage -> Prop) (pool : list Passage) :
  Forall P pool -> Forall P (ranking pool).
Proof.
  induction 1 as [|x pool Hx Hpool IH]; cbn; [constructor|].
  now apply insert_Forall.
Qed.

(** The ranking is a rearrangement of the pool, highest relevance first. *)
Lemma insert_perm (x : Passage) (ranked : list Passage) :
  insert x ranked ≡ₚ x :: ranked.
Proof.
  induction ranked as [|y rest IH]; cbn [insert_by_relevance]; [reflexivity|].
  destruct (Qltb _ _); [|reflexivity].
  rewrite IH. apply Permutation_swap.
Qed.

Lemma ranking_perm (pool : list Passage) : ranking pool ≡ₚ pool.
Proof.
  induction pool as [|x pool IH]; cbn; [reflexivity|].
  rewrite insert_perm. now rewrite IH.
Qed.

Lemma insert_sorted (x : Passage) (ranked : list Passage) :
  Sorted (fun a b => relevance b <= relevance a)%Q ranked ->
  Sorted (fun a b => relevance b <= relevance a)%Q (insert x ranked).
Proof.
  induction 1 as [|y rest Hsorted IH Hhd]; cbn [insert_by_relevance].
  - repeat constructor.
  - destruct (Qltb (relevance x) (relevance y)) eqn:Hcmp.
    + constructor; [exact IH|].
      destruct rest as [|z rest]; cbn [insert_by_relevance].
      * constructor. apply Qltb_lt in Hcmp. now apply Qlt_le_weak.
      * destruct (Qltb (relevance x) (relevance z)).
        -- constructor. now inversion Hhd.
        -- constructor. apply Qltb_lt in Hcmp. now apply Qlt_le_weak.
    + constructor; [now constructor|]. constructor. now apply Qltb_ge in Hcmp.
Qed.

Lemma ranking_sorted (pool : list Passage) :
  Sorted (fun a b => relevance b <= relevance a)%Q (ranking pool).
Proof.
  induction pool as [|x pool IH]; cbn; [constructor | now apply insert_sorted].
Qed.

(** A candidate that beats strictly all those before it and is not beaten
    by those after it heads the ranking; the rest is the ranking of the
    other candidates. *)
Lemma ranking_pick (before : list Passage) (c : Passage) (after : list Passage) :
  Forall (fun x => relevance x < relevance c)%Q before ->
  Forall (fun x => relevance x <= relevance c)%Q after ->
  ranking (before ++ c :: after) = c :: ranking (before ++ after).
Proof.
  intros Hb Ha. induction Hb as [|p before Hp Hb IH]; cbn [app].
  - cbn. apply insert_front. now apply ranking_Forall.
  - change (ranking (p :: before ++ c :: after))
      with (insert p (ranking (before ++ c :: after))).
    rewrite IH. cbn [insert_by_relevance].
    apply Qltb_lt in Hp. now rewrite Hp.
Qed.

Lemma greedy_by_relevance_is_ranking (f : Passage -> list Passage -> Q)
    (k : nat) (pool selected out : list Passage) :
  (forall c sel, f c sel == relevance c)%Q ->
  greedy_selection f k pool selected out ->
  out = take k (ranking pool).
Proof.
  intros Hf. induction 1 as [| |k before c after selected out Hb Ha Hrec IH].
  - reflexivity.
  - now destruct k.
  - rewrite ranking_pick.
    + cbn [take]. now rewrite IH.
    + eapply Forall_impl; [exact Hb|]. cbn. intros x Hx.
      now rewrite !Hf in Hx.
    + eapply Forall_impl; [exact Ha|]. cbn. intros x Hx.
      now rewrite !Hf in Hx.
Qed.

End RankingFacts.

(** C2. With [lambda = 1] the retriever returns the first [k] passages of
    the ranking of the pool by relevance alone. *)
Theorem retrieve_lambda_one_is_relevance_ranking
    (nearest : string -> nat -> list Document)
    (relevance : string -> Document -> Q)
    (similarity : Document -> Document -> Q)
    (query : string) (k fetch_k : nat) (lambda_mult : Q) :
  (lambda_mult == 1)%Q ->
  retrieve nearest relevance similarity query k fetch_k lambda_mult
    = take k (relevance_ranking (relevance query) (nearest query fetch_k)).
Proof.
  intros Hone. unfold retrieve.
  eapply greedy_by_relevance_is_ranking; [|apply mmr_select_greedy].
  intros c sel. unfold mmr_score. rewrite Hone. ring.
Qed.

(** ** Examples on concrete services and data *)

Example exit_spellings :
  is_exit_token "exit" = true /\ is_exit_token "EXIT" = true /\
  is_exit_token "eXiT" = true /\ is_exit_token "exit " = false /\
  is_exit_token "quit" = false /\ is_exit_token "" = false.
Proof. repeat split. Qed.

Example retrieve_demo :
  retrieve (fun _ fetch_k => take fetch_k [doc_b; doc_a; doc_c])
    (fun _ => demo_relevance) demo_similarity "who wrote it?" 4 5 (8 # 10)
    = [doc_a; doc_b; doc_c] /\
  retrieve (fun _ fetch_k => take fetch_k [doc_b; doc_a; doc_c])
    (fun _ => demo_relevance) demo_similarity "who wrote it?" 2 5 (1 # 2)
    = [doc_a; doc_c].
Proof. split; reflexivity. Qed.

(** One run of the loop: a question, [Exit], and a line that is never
    read. *)
Example chat_loop_demo_run :
  match chat_loop (@setup_chat_workflow (demo_externals ["Hello!"]) demo_store)
          "user_session_1" ["Hello"; "Exit"; "never read"] empty_world with
  | Ok (_, w') =>
      stdout w' = [input_prompt; answer_line "Hello!"; input_prompt] /\
      history "user_session_1" w' = [HumanMessage "Hello"; AIMessage "Hello!"] /\
      invocations w' =
        [[SystemMessage (assistant_prompt +:+ "alpha beta gamma");
          HumanMessage "Hello"]]
  | Raise _ => False
  end.
Proof. vm_compute. repeat split. Qed.

(** A fence that carries a language tag: the tag stays in the text that is
    parsed, so the reply does not parse and the extractor falls back. *)
Example tagged_fence_falls_back :
  @parse_reply (demo_externals [])
    ("```json" +:+ nl +:+ demo_json_text +:+ nl +:+ "```")
  = Raise (Exn "JSONDecodeError" "Expecting value: line 1 column 1 (char 0)").
Proof. reflexivity. Qed.

(** A fence of four backquotes: three are removed on each side, one stays
    on each side of the object, and the reply does not parse. *)
Example longer_fence_falls_back :
  @parse_reply (demo_externals [])
    ("````" +:+ nl +:+ demo_json_text +:+ nl +:+ "````")
  = Raise (Exn "JSONDecodeError" "Expecting value: line 1 column 1 (char 0)").
Proof. reflexivity. Qed.

(** A reply that parses, but to a list: the extractor returns the list, and
    the main program then fails on [metadata['date']]. *)
Lemma show_metadata_on_a_list `{Externals}
    (doc : Document) (docs : list Document) (w : World)
    (reply : string) (items : list json) :
  model_reply (length (invocations w)) (extraction_messages doc) = Ok reply ->
  parse_reply reply = Ok (JList items) ->
  show_metadata (doc :: docs) w
    = Raise (Exn "TypeError" "list indices must be integers or slices, not str").
Proof.
  intros Hreply Hparse. unfold show_metadata, bind.
  rewrite extract_metadata_cases, Hreply. cbv zeta. now rewrite Hparse.
Qed.

Lemma retrieve_lambda_one_witness :
  (2 # 2 == 1)%Q /\
  retrieve (fun _ fetch_k => take fetch_k [doc_b; doc_a; doc_c])
    (fun _ => demo_relevance) demo_similarity "who wrote it?" 2 5 (2 # 2)
  = take 2 (relevance_ranking demo_relevance (take 5 [doc_b; doc_a; doc_c])).
Proof.
  split; [reflexivity|].
  apply (retrieve_lambda_one_is_relevance_ranking
           (fun _ fetch_k => take fetch_k [doc_b; doc_a; doc_c])
           (fun _ => demo_relevance) demo_similarity "who wrote it?" 2 5 (2 # 2)).
  reflexivity.
Defined.

Lemma model_sees_context_then_history_witness :
  max_marginal_relevance_search demo_store "What did I just say?" 4 5 (8 # 10)
    = Ok [doc_a; doc_b; doc_c] /\
  @model_reply (demo_externals ["You said Hello."]) 0 demo_turn_messages
    = Ok "You said Hello." /\
  exists w',
    @create_augmented_response (demo_externals ["You said Hello."])
      {| messages := demo_prior ++ [HumanMessage "What did I just say?"] |}
      demo_store empty_world
      = Ok (AIMessage "You said Hello.", w') /\
    invocations w' = [demo_turn_messages] /\
    checkpoints w' = ∅ /\ stdout w' = [].
Proof.
  split; [reflexivity|]. split; [reflexivity|].
  apply (@model_sees_context_then_history (demo_externals ["You said Hello."])
           demo_store demo_prior "What did I just say?" empty_world
           [doc_a; doc_b; doc_c] "You said Hello."); reflexivity.
Defined.

Lemma n_turns_make_2n_messages_witness :
  sequential_turns
    (@setup_chat_workflow (demo_externals demo_replies) demo_store)
    "user_session_1" demo_questions empty_world
    = Ok (demo_replies, demo_world_after_turns) /\
  history "user_session_1" demo_world_after_turns
    = [HumanMessage "Hello"; AIMessage "Hello!";
       HumanMessage "What did I just say?"; AIMessage "You said Hello."] /\
  length (history "user_session_1" demo_world_after_turns) = 4.
Proof.
  assert (Hrun :
    sequential_turns
      (@setup_chat_workflow (demo_externals demo_replies) demo_store)
      "user_session_1" demo_questions empty_world
      = Ok (demo_replies, demo_world_after_turns))
    by (vm_compute; reflexivity).
  split; [exact Hrun|].
  destruct (@n_turns_make_2n_messages (demo_externals demo_replies) demo_store
              "user_session_1" demo_questions empty_world demo_replies
              demo_world_after_turns Hrun) as (_ & Hhist & Hfresh).
  split; [exact Hhist|].
  destruct (Hfresh eq_refl) as [Hlen _]. exact Hlen.
Defined.

Lemma fenced_reply_is_unwrapped_witness :
  all_whitespace " " = true /\ all_whitespace nl = true /\
  @model_reply (demo_externals [demo_fenced_reply]) 0 (extraction_messages demo_doc)
    = Ok demo_fenced_reply /\
  @json_loads (demo_externals [demo_fenced_reply])
    (strip (nl +:+ demo_json_text +:+ nl)) = Ok demo_json_value /\
  @parse_reply (demo_externals [demo_fenced_reply]) demo_fenced_reply
    = Ok demo_json_value /\
  @extract_metadata (demo_externals [demo_fenced_reply]) demo_doc empty_world
    = Ok (demo_json_value, add_invocation (extraction_messages demo_doc) empty_world).
Proof.
  split; [reflexivity|]. split; [reflexivity|].
  split; [reflexivity|]. split; [reflexivity|].
  apply (@fenced_reply_is_unwrapped (demo_externals [demo_fenced_reply])
           demo_doc empty_world " " (nl +:+ demo_json_text +:+ nl) nl
           demo_json_value); reflexivity.
Defined.

Lemma parse_failure_fails_soft_witness :
  @model_reply (demo_externals ["I found no metadata."]) 0
    (extraction_messages demo_doc) = Ok "I found no metadata." /\
  @parse_reply (demo_externals ["I found no metadata."]) "I found no metadata."
    = Raise demo_json_error /\
  @extract_metadata (demo_externals ["I found no metadata."]) demo_doc empty_world =
    Ok (null_metadata,
        add_output ("Error parsing metadata: " +:+ exn_msg demo_json_error +:+ nl)
          (add_invocation (extraction_messages demo_doc) empty_world)) /\
  getitem null_metadata "date" = Ok JNull /\
  getitem null_metadata "author" = Ok JNull.
Proof.
  split; [reflexivity|]. split; [reflexivity|].
  apply (@parse_failure_fails_soft (demo_externals ["I found no metadata."])
           demo_doc empty_world "I found no metadata." demo_json_error);
    reflexivity.
Defined.

(** C6, the claim as stated fails: when the call of the model fails, the
    error leaves [extract_metadata] and the metadata block, and nothing is
    printed as "Not found". *)
Lemma model_failure_escapes_extraction :
  @extract_metadata (demo_externals []) demo_doc empty_world
    = Raise (Exn "RateLimitError" "Rate limit reached for gpt-4") /\
  @show_metadata (demo_externals []) [demo_doc] empty_world
    = Raise (Exn "RateLimitError" "Rate limit reached for gpt-4") /\
  ~ (forall (services : Externals) (doc : Document) (w : World),
        exists v w', @extract_metadata services doc w = Ok (v, w')).
Proof.
  split; [reflexivity|]. split; [reflexivity|].
  intros Hall.
  destruct (Hall (demo_externals []) demo_doc empty_world) as (v & w' & Hok).
  discriminate Hok.
Qed.

Lemma reset_vector_store_idempotent_witness :
  filesystem demo_disk !! "data/chroma/" <> Some RegularFile /\
  exists w1 w2,
    reset_vector_store "data/chroma/" demo_disk = Ok (tt, w1) /\
    filesystem w1 = delete "data/chroma/" (filesystem demo_disk) /\
    filesystem w1 !! "data/chroma/" = None /\
    (filesystem demo_disk !! "data/chroma/" = None ->
     filesystem w1 = filesystem demo_disk) /\
    reset_vector_store "data/chroma/" w1 = Ok (tt, w2) /\
    filesystem w2 = filesystem w1.
Proof.
  assert (Hdir : filesystem demo_disk !! "data/chroma/" <> Some RegularFile)
    by (vm_compute; discriminate).
  split; [exact Hdir|].
  exact (reset_vector_store_idempotent "data/chroma/" demo_disk Hdir).
Defined.

(** ** More on the metadata extractor *)

Lemma lstrip_whitespace_only (ws : string) :
  all_whitespace ws = true -> lstrip ws = "".
Proof.
  induction ws as [|c ws IH]; cbn [all_whitespace lstrip]; [reflexivity|].
  intros [Hc Hws]%andb_prop. rewrite Hc. now apply IH.
Qed.

Lemma strip_trailing_whitespace (s ws : string) :
  all_whitespace ws = true -> strip (s +:+ ws) = strip s.
Proof.
  intros Hws. unfold strip. induction s as [|c s IH].
  - change ("" +:+ ws) with ws. now rewrite lstrip_whitespace_only.
  - change (String c s +:+ ws) with (String c (s +:+ ws)).
    cbn [lstrip]. destruct (isspace c); [exact IH|].
    change (String c (s +:+ ws)) with (String c s +:+ ws).
    now apply rstrip_whitespace.
Qed.

Lemma strip_surrounding_whitespace (ws1 s ws2 : string) :
  all_whitespace ws1 = true -> all_whitespace ws2 = true ->
  strip (ws1 +:+ s +:+ ws2) = strip s.
Proof.
  intros H1 H2. rewrite <- (strip_trailing_whitespace s ws2 H2).
  unfold strip. now rewrite lstrip_whitespace.
Qed.

Lemma substring_nothing (n : nat) (s : string) : substring n 0 s = "".
Proof.
  revert s. induction n as [|n IH]; intros [|c s]; cbn [substring];
    [reflexivity..|apply IH].
Qed.

Section ExtractionFacts.
Context `{Externals}.

(** X1. White space before and after the reply of the model makes no
    difference to what is parsed. *)
Theorem parse_reply_ignores_outer_whitespace (ws1 reply ws2 : string) :
  all_whitespace ws1 = true -> all_whitespace ws2 = true ->
  parse_reply (ws1 +:+ reply +:+ ws2) = parse_reply reply.
Proof.
  intros H1 H2. unfold parse_reply.
  now rewrite strip_surrounding_whitespace.
Qed.

(** X2. A reply so short that the opening and the closing fence overlap or
    touch (at most six characters once stripped) passes both tests, and the
    text handed to the parser is the empty string. *)
Theorem short_fenced_reply_parses_nothing (reply : string) :
  String.length (strip reply) <= 6 ->
  startswith (strip reply) fence = true ->
  endswith (strip reply) fence = true ->
  parse_reply reply = json_loads "".
Proof.
  intros Hlen Hstart Hend. unfold parse_reply. rewrite Hstart, Hend. cbn [andb].
  unfold slice. rewrite slice_index_3, slice_index_minus_3.
  replace (String.length (strip reply) - 3 - Nat.min (String.length (strip reply)) 3)
    with 0 by lia.
  now rewrite substring_nothing.
Qed.

(** X3. A call of [extract_metadata] that returns has called the model
    exactly once, with the fixed instruction and the text of the document;
    it has left the file system and the session store alone; and it has
    printed nothing, unless it returns the null object after one line that
    reports the parse error. *)
Theorem extract_metadata_effects (doc : Document) (w : World) (v : json) (w' : World) :
  extract_metadata doc w = Ok (v, w') ->
  invocations w' = invocations w ++ [extraction_messages doc] /\
  filesystem w' = filesystem w /\
  checkpoints w' = checkpoints w /\
  (stdout w' = stdout w \/
   (v = null_metadata /\
    exists e, stdout w' = stdout w ++ ["Error parsing metadata: " +:+ exn_msg e +:+ nl])).
Proof.
  rewrite extract_metadata_cases.
  destruct (model_reply _ _) as [reply|]; [|discriminate]. cbv zeta.
  destruct (parse_reply reply) as [v0|e]; intros [= <- <-]; cbn.
  - repeat split; now left.
  - repeat split. right. split; [reflexivity|]. now exists e.
Qed.

(** X4. When the model answers, the metadata block of the main program
    comes through exactly in two cases: the reply does not parse, or it
    parses to an object that has both a date and an author. A reply that
    parses to anything else makes the block raise. *)
Theorem show_metadata_succeeds_iff
    (doc : Document) (docs : list Document) (w : World) (reply : string) :
  model_reply (length (invocations w)) (extraction_messages doc) = Ok reply ->
  ((exists w', show_metadata (doc :: docs) w = Ok (tt, w')) <->
   match parse_reply reply with
   | Raise _ => True
   | Ok v =>
       exists fields d a,
         v = JDict fields /\ fields !! "date" = Some d /\ fields !! "author" = Some a
   end).
Proof.
  intros Hreply. unfold show_metadata, bind.
  rewrite extract_metadata_cases, Hreply. cbv zeta.
  destruct (parse_reply reply) as [v|e].
  - unfold print, write, lift.
    destruct v as [|b|z|f|s|items|fields]; cbn [getitem];
      try (split; [intros [w' Hw]; discriminate Hw
                  | intros (? & ? & ? & Hv & _); discriminate Hv]).
    destruct (fields !! "date") as [d|] eqn:Hd.
    + destruct (fields !! "author") as [a|] eqn:Ha.
      * split; [intros _; now exists fields, d, a | intros _; eexists; reflexivity].
      * split; [intros [w' Hw]; discriminate Hw|].
        intros (f & d' & a' & [= <-] & _ & Ha'). congruence.
    + split; [intros [w' Hw]; discriminate Hw|].
      intros (f & d' & a' & [= <-] & Hd' & _). congruence.
  - split; [trivial|]. intros _. eexists. reflexivity.
Qed.

(** X5. When the reply parses to an object whose date and author are
    strings, the block prints the heading and the two strings as they are;
    an empty string is printed as "Not found". *)
Theorem show_metadata_prints_strings
    (doc : Document) (docs : list Document) (w : World) (reply : string)
    (fields : gmap string json) (d a : string) :
  model_reply (length (invocations w)) (extraction_messages doc) = Ok reply ->
  parse_reply reply = Ok (JDict fields) ->
  fields !! "date" = Some (JStr d) ->
  fields !! "author" = Some (JStr a) ->
  show_metadata (doc :: docs) w =
    Ok (tt,
        add_outputs
          [ (nl +:+ "Document Metadata:") +:+ nl;
            ("Date: " +:+ (if String.eqb d "" then "Not found" else d)) +:+ nl;
            ("Author: " +:+ (if String.eqb a "" then "Not found" else a) +:+ nl) +:+ nl ]
          (add_invocation (extraction_messages doc) w)).
Proof.
  intros Hreply Hparse Hd Ha. unfold show_metadata, bind.
  rewrite extract_metadata_cases, Hreply. cbv zeta. rewrite Hparse.
  unfold print, write, lift. cbn [getitem]. rewrite Hd, Ha.
  unfold or_not_found. cbn [truthy].
  destruct (String.eqb d ""), (String.eqb a ""); cbn [negb format_value];
    unfold add_outputs, add_output; cbn; now rewrite <- !app_assoc.
Qed.

End ExtractionFacts.

(** ** More on resetting the vector store *)

(** X6. A reset that returns has left the session store and the record
    of model calls as they were and has printed exactly one line: either
    that the store was reset, or that none was found, and then the file
    system is unchanged too. *)
Theorem reset_vector_store_frame (dir : string) (w w1 : World) :
  reset_vector_store dir w = Ok (tt, w1) ->
  checkpoints w1 = checkpoints w /\
  invocations w1 = invocations w /\
  (stdout w1 = stdout w ++ ["Vector store at '" +:+ dir +:+ "' has been reset." +:+ nl] \/
   (filesystem w1 = filesystem w /\
    stdout w1 =
      stdout w ++ ["No existing vector store found at '" +:+ dir +:+ "'." +:+ nl])).
Proof.
  destruct (filesystem w !! dir) as [[|records]|] eqn:Hd.
  - unfold reset_vector_store, bind, path_exists, rmtree. rewrite Hd.
    destruct (endswith dir "/"); cbn [negb].
    + unfold print, write. rewrite !app_assoc_string.
      intros [= <-]. cbn. repeat split. now right.
    + rewrite Hd. discriminate.
  - rewrite (reset_directory _ _ _ Hd). intros [= <-]. cbn.
    repeat split. now left.
  - rewrite (reset_absent _ _ Hd). intros [= <-]. cbn.
    repeat split. now right.
Qed.


(** ** More on the response generator *)

Section ChatFacts.
Context `{Externals}.

(** X8. A call of the response generator that returns, on any state, has
    searched for the content of the last message (the empty string when
    there is none), has called the model exactly once, with the system
    instruction followed by the messages of the state unchanged, and
    returns an assistant message; it has not touched the session store, the
    output or the file system. *)
Theorem response_generator_effects
    (msgs : list Message) (vector_store : VectorStore) (w : World)
    (response : Message) (w' : World) :
  create_augmented_response {| messages := msgs |} vector_store w = Ok (response, w') ->
  exists results text,
    max_marginal_relevance_search vector_store (latest_query msgs) 4 5 (8 # 10)
      = Ok results /\
    response = AIMessage text /\
    invocations w' = invocations w ++ [augmented_messages results msgs] /\
    checkpoints w' = checkpoints w /\ stdout w' = stdout w /\
    filesystem w' = filesystem w.
Proof.
  rewrite create_augmented_response_cases.
  destruct (max_marginal_relevance_search _ _ _ _ _) as [results|]; [|discriminate].
  unfold model_invoke. destruct (model_reply _ _) as [text|]; [|discriminate].
  intros [= <- <-]. exists results, text. now cbn.
Qed.

End ChatFacts.

(** ** More on sessions and the chat loop *)

Lemma add_outputs_add_outputs (l1 l2 : list string) (w : World) :
  add_outputs l2 (add_outputs l1 w) = add_outputs (l1 ++ l2) w.
Proof. unfold add_outputs. cbn. now rewrite app_assoc. Qed.

Lemma add_outputs_nil (w : World) : add_outputs [] w = w.
Proof. destruct w. unfold add_outputs. cbn. now rewrite app_nil_r. Qed.

Lemma chat_loop_exit_line
    (app : CompiledGraph) (thread_id line : string) (rest : list string) (w : World) :
  is_exit_token line = true ->
  chat_loop app thread_id (line :: rest) w = Ok (tt, add_outputs [input_prompt] w).
Proof.
  intros Hexit. cbn [chat_loop]. unfold bind at 1. unfold write at 1.
  now rewrite lower_is_exit, Hexit.
Qed.

Lemma chat_loop_question_line
    (app : CompiledGraph) (thread_id line : string) (rest : list string) (w : World) :
  is_exit_token line = false ->
  chat_loop app thread_id (line :: rest) w =
  match chat_with_memory line app thread_id (add_outputs [input_prompt] w) with
  | Ok (response, w1) =>
      chat_loop app thread_id rest (add_outputs [answer_line response] w1)
  | Raise e => Raise e
  end.
Proof.
  intros Hexit. cbn [chat_loop]. unfold bind at 1. unfold write at 1.
  rewrite lower_is_exit, Hexit. unfold bind at 1.
  now destruct (chat_with_memory _ _ _ _) as [[response w1]|e].
Qed.

Section SessionFacts.
Context `{Externals}.

(** A turn does not look at what has been printed. *)
Lemma chat_with_memory_add_outputs
    (vector_store : VectorStore) (thread_id question : string)
    (lines : list string) (w : World) :
  chat_with_memory question (setup_chat_workflow vector_store) thread_id
    (add_outputs lines w) =
  match chat_with_memory question (setup_chat_workflow vector_store) thread_id w with
  | Ok (r, w1) => Ok (r, add_outputs lines w1)
  | Raise e => Raise e
  end.
Proof.
  rewrite !chat_with_memory_cases.
  destruct (max_marginal_relevance_search _ _ _ _ _) as [results|]; [|reflexivity].
  cbv zeta. change (invocations (add_outputs lines w)) with (invocations w).
  change (history thread_id (add_outputs lines w)) with (history thread_id w).
  now destruct (model_reply _ _).
Qed.

Lemma sequential_turns_add_outputs
    (vector_store : VectorStore) (thread_id : string) (questions : list string)
    (lines : list string) :
  forall w,
    sequential_turns (setup_chat_workflow vector_store) thread_id questions
      (add_outputs lines w) =
    match sequential_turns (setup_chat_workflow vector_store) thread_id questions w with
    | Ok (rs, w1) => Ok (rs, add_outputs lines w1)
    | Raise e => Raise e
    end.
Proof.
  induction questions as [|q qs IH]; intros w; [reflexivity|].
  cbn [sequential_turns]. unfold bind at 1 3.
  rewrite chat_with_memory_add_outputs.
  destruct (chat_with_memory q _ thread_id w) as [[r w1]|e]; [|reflexivity].
  unfold bind, ret. rewrite IH.
  now destruct (sequential_turns _ _ qs w1) as [[rs w2]|e].
Qed.

(** X9. A turn that succeeds returns the reply of the model, puts the
    question and that reply at the end of the history of its own session,
    and leaves every other session, the output and the file system as they
    were; the model has been called once. *)
Theorem turn_touches_one_session
    (vector_store : VectorStore) (thread_id question : string)
    (w : World) (reply : string) (w' : World) :
  chat_with_memory question (setup_chat_workflow vector_store) thread_id w
    = Ok (reply, w') ->
  history thread_id w' =
    history thread_id w ++ [HumanMessage question; AIMessage reply] /\
  (forall other, other <> thread_id ->
     checkpoints w' !! other = checkpoints w !! other) /\
  stdout w' = stdout w /\ filesystem w' = filesystem w /\
  length (invocations w') = S (length (invocations w)).
Proof.
  rewrite chat_with_memory_cases.
  destruct (max_marginal_relevance_search _ _ _ _ _) as [results|]; [|discriminate].
  cbv zeta. destruct (model_reply _ _) as [text|]; [|discriminate].
  intros [= <- <-]. split; [apply history_turn_world|]. cbn.
  split; [intros other Hother; now apply lookup_insert_ne|].
  repeat split. rewrite length_app. cbn. lia.
Qed.

Lemma sequential_turns_invocations
    (vector_store : VectorStore) (thread_id : string) (questions : list string) :
  forall w replies w',
    sequential_turns (setup_chat_workflow vector_store) thread_id questions w
      = Ok (replies, w') ->
    exists calls, invocations w' = invocations w ++ calls /\
                  length calls = length questions.
Proof.
  induction questions as [|q qs IH]; intros w replies w' Hrun.
  - injection Hrun as <- <-. exists []. now rewrite app_nil_r.
  - cbn [sequential_turns] in Hrun. unfold bind at 1 in Hrun.
    rewrite chat_with_memory_cases in Hrun.
    destruct (max_marginal_relevance_search _ _ _ _ _) as [results|]; [|discriminate].
    cbv zeta in Hrun. destruct (model_reply _ _) as [text|]; [|discriminate].
    unfold bind, ret in Hrun.
    destruct (sequential_turns _ _ qs _) as [[rs w0]|] eqn:Hrest; [|discriminate].
    injection Hrun as <- <-. apply IH in Hrest as (calls & Hcalls & Hlen).
    cbn [invocations turn_world] in Hcalls. rewrite <- app_assoc in Hcalls.
    eexists. split; [exact Hcalls|]. cbn. now rewrite Hlen.
Qed.

(** X10. In a run of turns on one session, the model receives at each
    turn the system instruction for that question followed by the history
    the session had before the run, the questions and replies of all the
    earlier turns of the run in order, and the new question. *)
Theorem model_sees_earlier_turns
    (vector_store : VectorStore) (thread_id : string) (questions : list string) :
  forall (w : World) (replies : list string) (w' : World),
    sequential_turns (setup_chat_workflow vector_store) thread_id questions w
      = Ok (replies, w') ->
    forall i q, questions !! i = Some q ->
      exists results,
        max_marginal_relevance_search vector_store q 4 5 (8 # 10) = Ok results /\
        invocations w' !! (length (invocations w) + i) =
          Some (augmented_messages results
                  (history thread_id w
                     ++ transcript (take i questions) (take i replies)
                     ++ [HumanMessage q])).
Proof.
  induction questions as [|q0 qs IH]; intros w replies w' Hrun i q Hq;
    [discriminate|].
  cbn [sequential_turns] in Hrun. unfold bind at 1 in Hrun.
  rewrite chat_with_memory_cases in Hrun.
  destruct (max_marginal_relevance_search vector_store q0 _ _ _) as [results0|] eqn:Hs;
    [|discriminate].
  cbv zeta in Hrun. destruct (model_reply _ _) as [text|]; [|discriminate].
  unfold bind, ret in Hrun.
  destruct (sequential_turns _ _ qs _) as [[rs w0]|] eqn:Hrest; [|discriminate].
  injection Hrun as <- <-.
  destruct i as [|i].
  - injection Hq as <-. exists results0. split; [exact Hs|].
    apply sequential_turns_invocations in Hrest as (calls & Hcalls & _).
    rewrite Hcalls. cbn [invocations turn_world]. rewrite <- app_assoc.
    rewrite Nat.add_0_r. cbn [app]. now rewrite list_lookup_middle.
  - cbn in Hq. destruct (IH _ _ _ Hrest i q Hq) as (results & Hsearch & Hlook).
    exists results. split; [exact Hsearch|].
    rewrite history_turn_world in Hlook. cbn [invocations turn_world] in Hlook.
    rewrite length_app in Hlook. cbn [length] in Hlook.
    replace (length (invocations w) + S i) with (length (invocations w) + 1 + i) by lia.
    rewrite Hlook. cbn [take transcript]. now rewrite <- !app_assoc.
Qed.

(** X11. Questions followed by a line that spells [exit]: the loop makes
    the turns of the questions in order, writes a prompt and the answer for
    each and a last prompt, and stops; the lines after [exit] make no
    difference. If a turn raises, so does the loop. *)
Theorem chat_loop_until_exit
    (vector_store : VectorStore) (thread_id : string)
    (questions : list string) (exit_line : string) (rest : list string) :
  Forall (fun q => is_exit_token q = false) questions ->
  is_exit_token exit_line = true ->
  forall w,
    chat_loop (setup_chat_workflow vector_store) thread_id
      (questions ++ exit_line :: rest) w =
    match sequential_turns (setup_chat_workflow vector_store) thread_id questions w with
    | Ok (replies, w1) => Ok (tt, add_outputs (loop_output replies) w1)
    | Raise e => Raise e
    end.
Proof.
  intros Hqs Hexit. induction Hqs as [|q qs Hq Hqs IH]; intros w.
  - cbn [app sequential_turns]. now rewrite chat_loop_exit_line.
  - cbn [app sequential_turns]. rewrite chat_loop_question_line by exact Hq.
    rewrite chat_with_memory_add_outputs. unfold bind at 1.
    destruct (chat_with_memory q _ thread_id w) as [[r w1]|e]; [|reflexivity].
    rewrite add_outputs_add_outputs, IH, sequential_turns_add_outputs.
    unfold bind, ret.
    destruct (sequential_turns _ _ qs w1) as [[rs w2]|e]; [|reflexivity].
    now rewrite add_outputs_add_outputs.
Qed.

End SessionFacts.

(** X12. The loop ends normally only on [exit]: if it returns, one of the
    lines it was given spells [exit]. *)
Theorem chat_loop_returns_only_on_exit
    (app : CompiledGraph) (thread_id : string) (stdin : list string) :
  forall w w',
    chat_loop app thread_id stdin w = Ok (tt, w') ->
    Exists (fun line => is_exit_token line = true) stdin.
Proof.
  induction stdin as [|line rest IH]; intros w w' Hrun; [discriminate|].
  destruct (is_exit_token line) eqn:Hexit; [now constructor 1|].
  rewrite chat_loop_question_line in Hrun by exact Hexit.
  destruct (chat_with_memory _ _ _ _) as [[r w1]|]; [|discriminate].
  constructor 2. exact (IH _ _ Hrun).
Qed.

(** X13. When the input ends before any line spells [exit], the loop
    raises [EOFError], here with a search and a model that always answer. *)
Theorem chat_loop_end_of_input `{Externals}
    (vector_store : VectorStore) (thread_id : string) (stdin : list string) :
  (forall q, exists results,
      max_marginal_relevance_search vector_store q 4 5 (8 # 10) = Ok results) ->
  (forall n msgs, exists text, model_reply n msgs = Ok text) ->
  Forall (fun line => is_exit_token line = false) stdin ->
  forall w,
    chat_loop (setup_chat_workflow vector_store) thread_id stdin w
      = Raise (Exn "EOFError" "EOF when reading a line").
Proof.
  intros Hsearch Hmodel Hlines.
  induction Hlines as [|line rest Hline Hrest IH]; intros w; [reflexivity|].
  rewrite chat_loop_question_line by exact Hline.
  rewrite chat_with_memory_cases.
  destruct (Hsearch line) as [results ->]. cbv zeta.
  destruct (Hmodel (length (invocations (add_outputs [input_prompt] w)))
              (augmented_messages results
                 (history thread_id (add_outputs [input_prompt] w)
                    ++ [HumanMessage line]))) as [text ->].
  apply IH.
Qed.

(** ** Document processing *)

Section ProcessingFacts.
Context `{Ingestion}.

Lemma load_all_from (loaders : list Loader) :
  forall docs,
    load_all loaders docs =
    match load_all loaders [] with
    | Ok more => Ok (docs ++ more)
    | Raise e => Raise e
    end.
Proof.
  induction loaders as [|loader rest IH]; intros docs; cbn [load_all].
  - now rewrite app_nil_r.
  - destruct (loader_load loader) as [pages|e]; [|reflexivity].
    rewrite (IH (docs ++ pages)), (IH ([] ++ pages)).
    destruct (load_all rest []) as [more|e]; [|reflexivity].
    cbn [app]. now rewrite app_assoc.
Qed.

Lemma loaded_pages (pdf_paths : list string) :
  match make_loaders pdf_paths with
  | Ok loaders =>
      match load_all loaders [] with
      | Ok docs => Some docs
      | Raise _ => None
      end
  | Raise _ => None
  end = pages_of pdf_paths.
Proof.
  induction pdf_paths as [|path rest IH]; cbn [make_loaders pages_of load_all];
    [reflexivity|].
  destruct (PyPDFLoader path) as [loader|e]; [|reflexivity].
  rewrite <- IH. destruct (make_loaders rest) as [loaders|e].
  - cbn [load_all]. destruct (loader_load loader) as [pages|e]; [|reflexivity].
    rewrite load_all_from. now destruct (load_all loaders []).
  - now destruct (loader_load loader).
Qed.

Lemma pages_of_app (paths1 paths2 : list string) :
  pages_of (paths1 ++ paths2) =
  match pages_of paths1, pages_of paths2 with
  | Some d1, Some d2 => Some (d1 ++ d2)
  | _, _ => None
  end.
Proof.
  induction paths1 as [|path rest IH]; cbn [app pages_of].
  - now destruct (pages_of paths2).
  - destruct (PyPDFLoader path) as [loader|e]; [|reflexivity].
    destruct (loader_load loader) as [pages|e]; [|reflexivity].
    rewrite IH. destruct (pages_of rest), (pages_of paths2); try reflexivity.
    now rewrite app_assoc.
Qed.

Lemma process_documents_pages (pdf_paths : list string) (chunk_size chunk_overlap : Z)
    (docs splits : list Document) :
  process_documents pdf_paths chunk_size chunk_overlap = Ok (docs, splits) ->
  pages_of pdf_paths = Some docs.
Proof.
  unfold process_documents. rewrite <- loaded_pages.
  destruct (make_loaders pdf_paths) as [loaders|]; [|discriminate].
  destruct (load_all loaders []) as [d|]; [|discriminate].
  destruct (RecursiveCharacterTextSplitter _ _ _) as [sp|]; [|discriminate].
  destruct (split_documents sp d); [|discriminate].
  now intros [= <- _].
Qed.

(** X14. The documents [process_documents] returns are the pages of the
    files in the order of the paths: processing two lists of paths in one
    call gives the pages of the first list followed by those of the second,
    and the chunks are the split of all of them. *)
Theorem process_documents_concatenates
    (paths1 paths2 : list string) (chunk_size chunk_overlap : Z)
    (docs1 splits1 docs2 splits2 : list Document) :
  process_documents paths1 chunk_size chunk_overlap = Ok (docs1, splits1) ->
  process_documents paths2 chunk_size chunk_overlap = Ok (docs2, splits2) ->
  process_documents (paths1 ++ paths2) chunk_size chunk_overlap =
    match RecursiveCharacterTextSplitter chunk_size chunk_overlap separators with
    | Ok text_splitter =>
        match split_documents text_splitter (docs1 ++ docs2) with
        | Ok splits => Ok (docs1 ++ docs2, splits)
        | Raise e => Raise e
        end
    | Raise e => Raise e
    end.
Proof.
  intros Hp1%process_documents_pages Hp2%process_documents_pages.
  pose proof (pages_of_app paths1 paths2) as Happ. rewrite Hp1, Hp2 in Happ.
  rewrite <- loaded_pages in Happ. unfold process_documents.
  destruct (make_loaders (paths1 ++ paths2)) as [loaders|]; [|discriminate].
  destruct (load_all loaders []) as [d|]; [|discriminate].
  now injection Happ as ->.
Qed.

Lemma make_loaders_first_failure (before : list string) (bad : string)
    (after : list string) (e : exn) :
  Forall (fun p => exists loader, PyPDFLoader p = Ok loader) before ->
  PyPDFLoader bad = Raise e ->
  make_loaders (before ++ bad :: after) = Raise e.
Proof.
  intros Hbefore Hbad. induction Hbefore as [|p rest [loader Hp] _ IH];
    cbn [app make_loaders].
  - now rewrite Hbad.
  - now rewrite Hp, IH.
Qed.

(** X15. Every loader is built before any file is loaded: the first path
    for which no loader can be built decides the error, whatever loading
    the files before it would have done, and no documents are returned. *)
Theorem process_documents_first_bad_path
    (before : list string) (bad : string) (after : list string) (e : exn)
    (chunk_size chunk_overlap : Z) :
  Forall (fun p => exists loader, PyPDFLoader p = Ok loader) before ->
  PyPDFLoader bad = Raise e ->
  process_documents (before ++ bad :: after) chunk_size chunk_overlap = Raise e.
Proof.
  intros Hbefore Hbad. unfold process_documents.
  now rewrite (make_loaders_first_failure _ _ _ _ Hbefore Hbad).
Qed.

(** X16. [process_documents] returns documents and chunks exactly when
    every file opens and loads, the documents being their pages in the
    order of the paths, and the splitter accepts its parameters and those
    pages; one file that fails makes the whole call raise. *)
Theorem process_documents_returns_iff
    (pdf_paths : list string) (chunk_size chunk_overlap : Z)
    (docs splits : list Document) :
  process_documents pdf_paths chunk_size chunk_overlap = Ok (docs, splits) <->
  pages_of pdf_paths = Some docs /\
  exists text_splitter,
    RecursiveCharacterTextSplitter chunk_size chunk_overlap separators = Ok text_splitter /\
    split_documents text_splitter docs = Ok splits.
Proof.
  unfold process_documents. rewrite <- loaded_pages.
  destruct (make_loaders pdf_paths) as [loaders|e].
  - destruct (load_all loaders []) as [d|e].
    + destruct (RecursiveCharacterTextSplitter _ _ _) as [sp|e].
      * destruct (split_documents sp d) as [s|e] eqn:Hsplit.
        -- split.
           ++ intros [= <- <-]. split; [reflexivity|]. now exists sp.
           ++ intros [[= <-] (sp' & [= <-] & Hs)]. congruence.
        -- split; [discriminate|].
           intros [[= <-] (sp' & [= <-] & Hs)]. congruence.
      * split; [discriminate|]. intros [_ (sp' & Hsp & _)]. discriminate.
    + split; [discriminate|]. intros [Hp _]. discriminate.
  - split; [discriminate|]. intros [Hp _]. discriminate.
Qed.

End ProcessingFacts.

(** ** Inspecting the vector store *)

Lemma print_documents_all (all_data : ChromaData) (n : nat) :
  forall start w,
    start + n = length (ids all_data) ->
    length (ids all_data) <= length (documents all_data) ->
    print_documents all_data (seq start n) w =
    Ok (tt,
        add_outputs
          (map (fun line => line +:+ nl)
             (zip_with document_line (drop start (ids all_data))
                (drop start (documents all_data))))
          w).
Proof.
  induction n as [|n IH]; intros start w Hlen Hdocs.
  - cbn [seq print_documents]. rewrite (drop_ge (ids all_data)) by lia.
    cbn. now rewrite add_outputs_nil.
  - cbn [seq print_documents].
    destruct (lookup_lt_is_Some_2 (ids all_data) start) as [x Hx]; [lia|].
    destruct (lookup_lt_is_Some_2 (documents all_data) start) as [y Hy]; [lia|].
    unfold bind at 1, lift at 1, item at 1. rewrite Hx.
    unfold bind at 1, lift at 1, item at 1. rewrite Hy.
    unfold bind at 1, print, write.
    rewrite (IH (S start)) by lia.
    rewrite (drop_S _ _ _ Hx), (drop_S _ _ _ Hy). cbn [zip_with map].
    change (add_output (document_line x y +:+ nl) w)
      with (add_outputs [document_line x y +:+ nl] w).
    now rewrite add_outputs_add_outputs.
Qed.

Lemma print_documents_short (all_data : ChromaData) (n : nat) :
  forall start w,
    start <= length (documents all_data) ->
    length (documents all_data) < start + n ->
    start + n <= length (ids all_data) ->
    print_documents all_data (seq start n) w =
    Raise (Exn "IndexError" "list index out of range").
Proof.
  induction n as [|n IH]; intros start w Hstart Hdocs Hids; [lia|].
  cbn [seq print_documents].
  destruct (lookup_lt_is_Some_2 (ids all_data) start) as [x Hx]; [lia|].
  unfold bind at 1, lift at 1, item at 1. rewrite Hx.
  unfold bind at 1, lift at 1, item at 1.
  destruct (documents all_data !! start) as [y|] eqn:Hy.
  - apply lookup_lt_Some in Hy as Hlt.
    unfold bind at 1, print, write. apply IH; lia.
  - reflexivity.
Qed.

(** X17. When the store returns a text for every id,
    [view_chroma_database] prints the count and then, for each id in the
    order returned, one line with the id and its text, and nothing else. *)
Theorem view_chroma_database_prints_all
    (vector_store : ChromaStore) (count : nat) (all_data : ChromaData) (w : World) :
  collection_count vector_store = Ok count ->
  chroma_get vector_store = Ok all_data ->
  length (ids all_data) <= length (documents all_data) ->
  view_chroma_database vector_store w =
  Ok (tt,
      add_outputs
        ((("Number of documents in the Chroma database: " +:+ pretty count) +:+ nl)
         :: map (fun line => line +:+ nl)
              (zip_with document_line (ids all_data) (documents all_data)))
        w).
Proof.
  intros Hcount Hget Hlen. unfold view_chroma_database, bind, lift, print, write.
  rewrite Hcount, Hget. rewrite print_documents_all by (cbn; lia).
  rewrite !drop_0.
  change (add_output (("Number of documents in the Chroma database: "
                         +:+ pretty count) +:+ nl) w)
    with (add_outputs [("Number of documents in the Chroma database: "
                          +:+ pretty count) +:+ nl] w).
  now rewrite add_outputs_add_outputs.
Qed.

(** X18. The loop runs over the ids and indexes the texts with the same
    index: when the store returns fewer texts than ids, the function
    raises [IndexError]. *)
Theorem view_chroma_database_missing_text
    (vector_store : ChromaStore) (count : nat) (all_data : ChromaData) (w : World) :
  collection_count vector_store = Ok count ->
  chroma_get vector_store = Ok all_data ->
  length (documents all_data) < length (ids all_data) ->
  view_chroma_database vector_store w =
  Raise (Exn "IndexError" "list index out of range").
Proof.
  intros Hcount Hget Hlen. unfold view_chroma_database, bind, lift, print, write.
  rewrite Hcount, Hget. apply print_documents_short; cbn; lia.
Qed.

(** X19. The system instruction is built anew at every turn and never
    stored: a session whose history holds no system message holds none
    after any run of turns. *)
Theorem history_holds_no_system_message `{Externals}
    (vector_store : VectorStore) (thread_id : string) (questions : list string)
    (w : World) (replies : list string) (w' : World) :
  sequential_turns (setup_chat_workflow vector_store) thread_id questions w
    = Ok (replies, w') ->
  Forall (fun m => is_system m = false) (history thread_id w) ->
  Forall (fun m => is_system m = false) (history thread_id w').
Proof.
  intros Hrun Hold. apply sequential_turns_history in Hrun as [_ ->].
  apply Forall_app. split; [exact Hold|].
  clear. revert replies. induction questions as [|q qs IH]; intros [|r rs];
    cbn [transcript]; try constructor; [reflexivity|].
  constructor; [reflexivity|apply IH].
Qed.

(** X20. A turn raises in two cases only, and with that error: the search
    fails, or the search succeeds and the model fails on the messages built
    from its results. Reading the last message of the final state never
    raises. *)
Theorem turn_raises_iff `{Externals}
    (vector_store : VectorStore) (thread_id question : string) (w : World) (e : exn) :
  chat_with_memory question (setup_chat_workflow vector_store) thread_id w = Raise e <->
  max_marginal_relevance_search vector_store question 4 5 (8 # 10) = Raise e \/
  exists results,
    max_marginal_relevance_search vector_store question 4 5 (8 # 10) = Ok results /\
    model_reply (length (invocations w))
      (augmented_messages results (history thread_id w ++ [HumanMessage question]))
      = Raise e.
Proof.
  rewrite chat_with_memory_cases.
  destruct (max_marginal_relevance_search _ _ _ _ _) as [results|e0].
  - cbv zeta. destruct (model_reply _ _) as [text|e1] eqn:Hm.
    + split; [discriminate|]. intros [Hs|(r & [= <-] & Hr)]; [discriminate|congruence].
    + split.
      * intros [= <-]. right. now exists results.
      * intros [Hs|(r & [= <-] & Hr)]; [discriminate|congruence].
  - split; [intros [= <-]; now left|].
    intros [[= <-]|(r & Hs & _)]; [reflexivity|discriminate].
Qed.

(** ** Examples for the further properties *)

Lemma parse_reply_ignores_outer_whitespace_witness :
  all_whitespace " " = true /\ all_whitespace nl = true /\
  @parse_reply (demo_externals []) (" " +:+ demo_json_text +:+ nl)
    = @parse_reply (demo_externals []) demo_json_text.
Proof.
  split; [reflexivity|]. split; [reflexivity|].
  apply (@parse_reply_ignores_outer_whitespace (demo_externals [])
           " " demo_json_text nl); reflexivity.
Defined.

Lemma short_fenced_reply_parses_nothing_witness :
  String.length (strip "````") <= 6 /\
  startswith (strip "````") fence = true /\
  endswith (strip "````") fence = true /\
  @parse_reply (demo_externals []) "````" = @json_loads (demo_externals []) "".
Proof.
  assert (Hlen : String.length (strip "````") <= 6) by (vm_compute; lia).
  split; [exact Hlen|]. split; [reflexivity|]. split; [reflexivity|].
  apply (@short_fenced_reply_parses_nothing (demo_externals []) "````" Hlen);
    reflexivity.
Defined.

Lemma extract_metadata_effects_witness :
  @extract_metadata (demo_externals ["I found no metadata."]) demo_doc empty_world
    = Ok (null_metadata, demo_world_after_extraction) /\
  invocations demo_world_after_extraction = [extraction_messages demo_doc] /\
  filesystem demo_world_after_extraction = ∅ /\
  checkpoints demo_world_after_extraction = ∅.
Proof.
  assert (Hrun :
    @extract_metadata (demo_externals ["I found no metadata."]) demo_doc empty_world
      = Ok (null_metadata, demo_world_after_extraction)) by reflexivity.
  split; [exact Hrun|].
  destruct (@extract_metadata_effects (demo_externals ["I found no metadata."])
              demo_doc empty_world null_metadata demo_world_after_extraction Hrun)
    as (Hi & Hf & Hc & _).
  split; [exact Hi|]. split; [exact Hf|exact Hc].
Defined.

Lemma show_metadata_succeeds_iff_witness :
  @model_reply (demo_externals [demo_json_text]) 0 (extraction_messages demo_doc)
    = Ok demo_json_text /\
  ((exists w', @show_metadata (demo_externals [demo_json_text]) [demo_doc] empty_world
                 = Ok (tt, w')) <->
   match @parse_reply (demo_externals [demo_json_text]) demo_json_text with
   | Raise _ => True
   | Ok v =>
       exists fields d a,
         v = JDict fields /\ fields !! "date" = Some d /\ fields !! "author" = Some a
   end).
Proof.
  split; [reflexivity|].
  apply (@show_metadata_succeeds_iff (demo_externals [demo_json_text])
           demo_doc [] empty_world demo_json_text).
  reflexivity.
Defined.

Lemma show_metadata_prints_strings_witness :
  @model_reply (demo_externals [demo_json_text]) 0 (extraction_messages demo_doc)
    = Ok demo_json_text /\
  @parse_reply (demo_externals [demo_json_text]) demo_json_text
    = Ok (JDict (<["date" := JStr "2024-05-01"]> (<["author" := JStr "Jane Doe"]> ∅))) /\
  @show_metadata (demo_externals [demo_json_text]) [demo_doc] empty_world =
    Ok (tt,
        add_outputs
          [ (nl +:+ "Document Metadata:") +:+ nl;
            "Date: 2024-05-01" +:+ nl;
            ("Author: Jane Doe" +:+ nl) +:+ nl ]
          (add_invocation (extraction_messages demo_doc) empty_world)).
Proof.
  split; [reflexivity|]. split; [reflexivity|].
  apply (@show_metadata_prints_strings (demo_externals [demo_json_text])
           demo_doc [] empty_world demo_json_text
           (<["date" := JStr "2024-05-01"]> (<["author" := JStr "Jane Doe"]> ∅))
           "2024-05-01" "Jane Doe"); reflexivity.
Defined.

Lemma reset_vector_store_frame_witness :
  reset_vector_store "data/chroma/" demo_disk = Ok (tt, demo_disk_after_reset) /\
  checkpoints demo_disk_after_reset = ∅ /\
  invocations demo_disk_after_reset = [] /\
  (stdout demo_disk_after_reset
     = [] ++ ["Vector store at '" +:+ "data/chroma/" +:+ "' has been reset." +:+ nl] \/
   (filesystem demo_disk_after_reset = filesystem demo_disk /\
    stdout demo_disk_after_reset
      = [] ++ ["No existing vector store found at '" +:+ "data/chroma/" +:+ "'." +:+ nl])).
Proof.
  assert (Hrun : reset_vector_store "data/chroma/" demo_disk
                 = Ok (tt, demo_disk_after_reset)) by reflexivity.
  split; [exact Hrun|].
  exact (reset_vector_store_frame "data/chroma/" demo_disk demo_disk_after_reset Hrun).
Defined.


Lemma response_generator_effects_witness :
  @create_augmented_response (demo_externals ["Hello!"])
    {| messages := [HumanMessage "Hello"] |} demo_store empty_world
    = Ok (AIMessage "Hello!", demo_world_after_response) /\
  exists results text,
    max_marginal_relevance_search demo_store (latest_query [HumanMessage "Hello"])
      4 5 (8 # 10) = Ok results /\
    AIMessage "Hello!" = AIMessage text /\
    invocations demo_world_after_response
      = [] ++ [augmented_messages results [HumanMessage "Hello"]] /\
    checkpoints demo_world_after_response = ∅ /\
    stdout demo_world_after_response = [] /\
    filesystem demo_world_after_response = ∅.
Proof.
  assert (Hrun :
    @create_augmented_response (demo_externals ["Hello!"])
      {| messages := [HumanMessage "Hello"] |} demo_store empty_world
      = Ok (AIMessage "Hello!", demo_world_after_response)) by reflexivity.
  split; [exact Hrun|].
  exact (@response_generator_effects (demo_externals ["Hello!"])
           [HumanMessage "Hello"] demo_store empty_world
           (AIMessage "Hello!") demo_world_after_response Hrun).
Defined.

Lemma turn_touches_one_session_witness :
  chat_with_memory "Hello"
    (@setup_chat_workflow (demo_externals ["Hello!"]) demo_store)
    "user_session_1" empty_world
    = Ok ("Hello!", demo_world_after_turn) /\
  history "user_session_1" demo_world_after_turn
    = [] ++ [HumanMessage "Hello"; AIMessage "Hello!"] /\
  (forall other, other <> "user_session_1" ->
     checkpoints demo_world_after_turn !! other = (∅ : gmap string (list Message)) !! other) /\
  stdout demo_world_after_turn = [] /\ filesystem demo_world_after_turn = ∅ /\
  length (invocations demo_world_after_turn) = 1.
Proof.
  assert (Hrun :
    chat_with_memory "Hello"
      (@setup_chat_workflow (demo_externals ["Hello!"]) demo_store)
      "user_session_1" empty_world
      = Ok ("Hello!", demo_world_after_turn)) by (vm_compute; reflexivity).
  split; [exact Hrun|].
  exact (@turn_touches_one_session (demo_externals ["Hello!"]) demo_store
           "user_session_1" "Hello" empty_world "Hello!" demo_world_after_turn Hrun).
Defined.

Lemma model_sees_earlier_turns_witness :
  sequential_turns
    (@setup_chat_workflow (demo_externals demo_replies) demo_store)
    "user_session_1" demo_questions empty_world
    = Ok (demo_replies, demo_world_after_turns) /\
  demo_questions !! 1 = Some "What did I just say?" /\
  exists results,
    max_marginal_relevance_search demo_store "What did I just say?" 4 5 (8 # 10)
      = Ok results /\
    invocations demo_world_after_turns !! (0 + 1) =
      Some (augmented_messages results
              ([] ++ [HumanMessage "Hello"; AIMessage "Hello!"]
                  ++ [HumanMessage "What did I just say?"])).
Proof.
  assert (Hrun :
    sequential_turns
      (@setup_chat_workflow (demo_externals demo_replies) demo_store)
      "user_session_1" demo_questions empty_world
      = Ok (demo_replies, demo_world_after_turns)) by (vm_compute; reflexivity).
  split; [exact Hrun|]. split; [reflexivity|].
  exact (@model_sees_earlier_turns (demo_externals demo_replies) demo_store
           "user_session_1" demo_questions empty_world demo_replies
           demo_world_after_turns Hrun 1 "What did I just say?" eq_refl).
Defined.

Lemma chat_loop_until_exit_witness :
  Forall (fun q => is_exit_token q = false) demo_questions /\
  is_exit_token "EXIT" = true /\
  chat_loop (@setup_chat_workflow (demo_externals demo_replies) demo_store)
    "user_session_1" (demo_questions ++ "EXIT" :: ["never read"]) empty_world =
  match sequential_turns
          (@setup_chat_workflow (demo_externals demo_replies) demo_store)
          "user_session_1" demo_questions empty_world with
  | Ok (replies, w1) => Ok (tt, add_outputs (loop_output replies) w1)
  | Raise e => Raise e
  end.
Proof.
  assert (Hqs : Forall (fun q => is_exit_token q = false) demo_questions)
    by (repeat constructor).
  split; [exact Hqs|]. split; [reflexivity|].
  exact (@chat_loop_until_exit (demo_externals demo_replies) demo_store
           "user_session_1" demo_questions "EXIT" ["never read"] Hqs eq_refl
           empty_world).
Defined.

Lemma chat_loop_returns_only_on_exit_witness :
  chat_loop (@setup_chat_workflow (demo_externals []) demo_store)
    "user_session_1" ["exit"] empty_world = Ok (tt, demo_world_after_exit) /\
  Exists (fun line => is_exit_token line = true) ["exit"].
Proof.
  assert (Hrun :
    chat_loop (@setup_chat_workflow (demo_externals []) demo_store)
      "user_session_1" ["exit"] empty_world = Ok (tt, demo_world_after_exit))
    by reflexivity.
  split; [exact Hrun|].
  exact (chat_loop_returns_only_on_exit
           (@setup_chat_workflow (demo_externals []) demo_store)
           "user_session_1" ["exit"] empty_world demo_world_after_exit Hrun).
Defined.

Lemma chat_loop_end_of_input_witness :
  (forall q, exists results,
      max_marginal_relevance_search demo_store q 4 5 (8 # 10) = Ok results) /\
  (forall n msgs, exists text, @model_reply steady_externals n msgs = Ok text) /\
  Forall (fun line => is_exit_token line = false) ["Hello"; "quit"] /\
  chat_loop (@setup_chat_workflow steady_externals demo_store)
    "user_session_1" ["Hello"; "quit"] empty_world
    = Raise (Exn "EOFError" "EOF when reading a line").
Proof.
  assert (Hsearch : forall q, exists results,
             max_marginal_relevance_search demo_store q 4 5 (8 # 10) = Ok results)
    by (intros q; eexists; reflexivity).
  assert (Hmodel : forall n msgs, exists text,
             @model_reply steady_externals n msgs = Ok text)
    by (intros n msgs; eexists; reflexivity).
  assert (Hlines : Forall (fun line => is_exit_token line = false) ["Hello"; "quit"])
    by (repeat constructor).
  split; [exact Hsearch|]. split; [exact Hmodel|]. split; [exact Hlines|].
  exact (@chat_loop_end_of_input steady_externals demo_store "user_session_1"
           ["Hello"; "quit"] Hsearch Hmodel Hlines empty_world).
Defined.

Lemma process_documents_concatenates_witness :
  @process_documents ingestion_demo ["a.pdf"] 1000 200
    = Ok (demo_pages_a, demo_pages_a) /\
  @process_documents ingestion_demo ["b.pdf"] 1000 200
    = Ok (demo_pages_b, demo_pages_b) /\
  @process_documents ingestion_demo (["a.pdf"] ++ ["b.pdf"]) 1000 200 =
    match @RecursiveCharacterTextSplitter ingestion_demo 1000 200 separators with
    | Ok text_splitter =>
        match @split_documents ingestion_demo text_splitter
                (demo_pages_a ++ demo_pages_b) with
        | Ok splits => Ok (demo_pages_a ++ demo_pages_b, splits)
        | Raise e => Raise e
        end
    | Raise e => Raise e
    end.
Proof.
  split; [reflexivity|]. split; [reflexivity|].
  exact (@process_documents_concatenates ingestion_demo ["a.pdf"] ["b.pdf"] 1000 200
           demo_pages_a demo_pages_a demo_pages_b demo_pages_b eq_refl eq_refl).
Defined.

Lemma process_documents_first_bad_path_witness :
  Forall (fun p => exists loader, @PyPDFLoader ingestion_demo p = Ok loader)
    ["broken.pdf"] /\
  @PyPDFLoader ingestion_demo "missing.pdf"
    = Raise (Exn "ValueError" "File path missing.pdf is not a valid file or url") /\
  @process_documents ingestion_demo (["broken.pdf"] ++ "missing.pdf" :: ["a.pdf"]) 1000 200
    = Raise (Exn "ValueError" "File path missing.pdf is not a valid file or url").
Proof.
  assert (Hbefore :
    Forall (fun p => exists loader, @PyPDFLoader ingestion_demo p = Ok loader)
      ["broken.pdf"])
    by (repeat constructor; eexists; reflexivity).
  split; [exact Hbefore|]. split; [reflexivity|].
  exact (@process_documents_first_bad_path ingestion_demo ["broken.pdf"]
           "missing.pdf" ["a.pdf"] _ 1000 200 Hbefore eq_refl).
Defined.

Lemma view_chroma_database_prints_all_witness :
  collection_count demo_chroma = Ok 2 /\
  chroma_get demo_chroma
    = Ok {| ids := ["id-1"; "id-2"]; documents := ["alpha"; "beta"] |} /\
  length ["id-1"; "id-2"] <= length ["alpha"; "beta"] /\
  view_chroma_database demo_chroma empty_world =
  Ok (tt,
      add_outputs
        [ "Number of documents in the Chroma database: 2" +:+ nl;
          document_line "id-1" "alpha" +:+ nl;
          document_line "id-2" "beta" +:+ nl ]
        empty_world).
Proof.
  assert (Hlen : length ["id-1"; "id-2"] <= length ["alpha"; "beta"]) by (cbn; lia).
  split; [reflexivity|]. split; [reflexivity|]. split; [exact Hlen|].
  exact (view_chroma_database_prints_all demo_chroma 2
           {| ids := ["id-1"; "id-2"]; documents := ["alpha"; "beta"] |}
           empty_world eq_refl eq_refl Hlen).
Defined.

Lemma view_chroma_database_missing_text_witness :
  collection_count demo_short_chroma = Ok 2 /\
  chroma_get demo_short_chroma
    = Ok {| ids := ["id-1"; "id-2"]; documents := ["alpha"] |} /\
  length ["alpha"] < length ["id-1"; "id-2"] /\
  view_chroma_database demo_short_chroma empty_world
    = Raise (Exn "IndexError" "list index out of range").
Proof.
  assert (Hlen : length ["alpha"] < length ["id-1"; "id-2"]) by (cbn; lia).
  split; [reflexivity|]. split; [reflexivity|]. split; [exact Hlen|].
  exact (view_chroma_database_missing_text demo_short_chroma 2
           {| ids := ["id-1"; "id-2"]; documents := ["alpha"] |}
           empty_world eq_refl eq_refl Hlen).
Defined.

Lemma history_holds_no_system_message_witness :
  sequential_turns
    (@setup_chat_workflow (demo_externals demo_replies) demo_store)
    "user_session_1" demo_questions empty_world
    = Ok (demo_replies, demo_world_after_turns) /\
  Forall (fun m => is_system m = false) (history "user_session_1" empty_world) /\
  Forall (fun m => is_system m = false) (history "user_session_1" demo_world_after_turns).
Proof.
  assert (Hrun :
    sequential_turns
      (@setup_chat_workflow (demo_externals demo_replies) demo_store)
      "user_session_1" demo_questions empty_world
      = Ok (demo_replies, demo_world_after_turns)) by (vm_compute; reflexivity).
  assert (Hold : Forall (fun m => is_system m = false)
                   (history "user_session_1" empty_world)) by constructor.
  split; [exact Hrun|]. split; [exact Hold|].
  exact (@history_holds_no_system_message (demo_externals demo_replies) demo_store
           "user_session_1" demo_questions empty_world demo_replies
           demo_world_after_turns Hrun Hold).
Defined.
